(** * list_installed_apps.py: a shallow embedding and its properties

    The script lists the third-party applications of a macOS machine by
    category.  Python values are modelled as follows.

    - A [str] is a [string]: the UTF-8 bytes of the text.  Substring
      search, [startswith], [endswith], [replace] and the ordering of
      strings by code point all agree with their byte-wise versions on
      UTF-8, so they are defined on the bytes.
    - [str.lower] is a library function whose full Unicode table is not
      part of the script: the definitions that call it take it as the
      section variable [lower].  [ascii_lower] is the instance used to
      run the definitions on ASCII text.
    - A [set] of strings is a [gset string]; a [dict] whose order matters
      is an association list in insertion order.
    - [print] appends one element to the list of printed texts. *)

From Stdlib Require Import String Ascii List Bool Arith Lia.
From stdpp Require Import base gmap strings list sorting.

Import ListNotations.
Set Warnings "-register-all".
Local Open Scope string_scope.
Local Open Scope list_scope.

(** ** Strings *)

(** [sub in s]. *)
Fixpoint contains (sub s : string) : bool :=
  String.prefix sub s ||
  match s with
  | EmptyString => false
  | String _ s' => contains sub s'
  end.

(** [s.startswith(p)]. *)
Definition startswith (s p : string) : bool := String.prefix p s.

(** [s.endswith(p)]. *)
Definition endswith (s p : string) : bool :=
  String.prefix (String.rev p) (String.rev s).

(** [s.replace(old, new)] for a non-empty [old]: the occurrences of [old]
    are replaced from left to right, without overlap.  [skip] counts the
    characters of an occurrence that are still to be dropped. *)
Fixpoint replace_from (skip : nat) (old new s : string) : string :=
  match s with
  | EmptyString => EmptyString
  | String c s' =>
      match skip with
      | S k => replace_from k old new s'
      | O =>
          if String.prefix old s
          then new +:+ replace_from (String.length old - 1) old new s'
          else String c (replace_from 0 old new s')
      end
  end.

(** With an empty [old], Python puts [new] before every character and at
    the end. *)
Fixpoint intersperse_all (new s : string) : string :=
  match s with
  | EmptyString => new
  | String c s' => new +:+ String c (intersperse_all new s')
  end.

Definition replace (s old new : string) : string :=
  match old with
  | EmptyString => intersperse_all new s
  | _ => replace_from 0 old new s
  end.

(** [str.lower] restricted to ASCII letters. *)
Definition ascii_lower_char (c : ascii) : ascii :=
  let n := nat_of_ascii c in
  if Nat.leb 65 n && Nat.leb n 90 then ascii_of_nat (n + 32) else c.

Fixpoint ascii_lower (s : string) : string :=
  match s with
  | EmptyString => EmptyString
  | String c s' => String (ascii_lower_char c) (ascii_lower s')
  end.

(** ** Dictionaries in insertion order *)

Fixpoint dict_get {V : Type} (k : string) (d : list (string * V)) : option V :=
  match d with
  | [] => None
  | (k', v) :: d' => if String.eqb k k' then Some v else dict_get k d'
  end.

(** ** The classifier *)

Definition special_cases : list (string * string) :=
  [ ("Google Slides", "Productivity");
    ("Google Docs", "Productivity");
    ("Google Sheets", "Productivity");
    ("Keynote", "Productivity");
    ("Pages", "Productivity");
    ("Numbers", "Productivity");
    ("Obsidian", "Productivity");
    ("OnyX", "Utilities");
    ("SteerMouse", "Utilities");
    ("Tabby", "Development");
    ("Ubuntu", "Virtualization");
    ("Yubico Authenticator", "Security & Privacy");
    ("iStat Menus", "Utilities");
    ("iStat Menus Helper", "Utilities");
    ("iStat Menus Menubar", "Utilities");
    ("Scam Copilot", "Security & Privacy");
    ("Rectangle Pro", "Utilities");
    ("AppCleaner", "Utilities");
    ("Bartender 5", "Utilities");
    ("ForkLift", "Utilities");
    ("Swift Quit", "Utilities") ].

Definition categories : list (string * list string) :=
  [ ("Development",
      [ "Visual Studio Code"; "Xcode"; "Docker"; "iTerm"; "Python";
        "Developer"; "IDE"; "Terminal"; "Code"; "Git" ]);
    ("Browsers & Internet",
      [ "Chrome"; "Firefox"; "Safari"; "Opera"; "Edge"; "Arc"; "Browser" ]);
    ("Security & Privacy",
      [ "1Password"; "Bitwarden"; "VPN"; "Antivirus"; "Bitdefender";
        "Password"; "Security"; "Radio Silence"; "Yubico"; "Scam" ]);
    ("Productivity",
      [ "Office"; "Docs"; "Sheets"; "Slides"; "Notes"; "Task";
        "Calendar"; "Mail"; "Presentation"; "Document" ]);
    ("Utilities",
      [ "Rectangle"; "Bartender"; "AppCleaner"; "ForkLift";
        "Utility"; "Cleaner"; "Manager"; "Stats"; "Monitor";
        "Helper"; "Menu" ]);
    ("Media & Creative",
      [ "DaVinci"; "Luminar"; "Screen"; "Spotify";
        "Music"; "Photo"; "Video"; "Audio"; "Creative"; "Media" ]);
    ("Cloud Storage",
      [ "Google Drive"; "Dropbox"; "iCloud"; "OneDrive"; "Box"; "Sync" ]);
    ("Virtualization",
      [ "Parallels"; "VMware"; "VirtualBox"; "Virtual"; "VM"; "Linux";
        "Windows"; "Ubuntu" ]) ].

(** The values a category name can take. *)
Definition CategoryName : list string :=
  [ "Development"; "Browsers & Internet"; "Security & Privacy";
    "Productivity"; "Utilities"; "Media & Creative"; "Cloud Storage";
    "Virtualization"; "Other" ].

Section Classifier.
Variable lower : string -> string.

(** [any(keyword.lower() in app_name_lower for keyword in keywords)]. *)
Definition any_keyword (app_name_lower : string) (keywords : list string) : bool :=
  existsb (fun keyword => contains (lower keyword) app_name_lower) keywords.

(** The loop over [categories.items()]: the first category one of whose
    keywords occurs in the lowered name. *)
Fixpoint scan (app_name_lower : string) (table : list (string * list string))
  : option string :=
  match table with
  | [] => None
  | (category, keywords) :: table' =>
      if any_keyword app_name_lower keywords then Some category
      else scan app_name_lower table'
  end.

Definition get_app_category (app_name path : string) : string :=
  match dict_get app_name special_cases with
  | Some category => category
  | None =>
      if contains "ubuntu" (lower app_name) then "Virtualization"
      else
        let app_name_lower := lower app_name in
        match scan app_name_lower categories with
        | Some category => category
        | None => "Other"
        end
  end.
End Classifier.

(** ** Outcomes of code that can raise *)

Inductive result (A : Type) : Type :=
| Ok (a : A)
| Raise (e : string).
Arguments Ok {A} a.
Arguments Raise {A} e.

(** ** The system-app enumerator *)

(** What the script sees at a path: [os.path.exists] is false at [None];
    at a path that exists [os.listdir] returns the entries of a directory,
    or raises [e]: the path is not a directory, or it may not be read. *)
Inductive fs_node : Type :=
| Directory (entries : list string)
| Unlistable (e : string).

Definition filesystem : Type := string -> option fs_node.

Definition system_paths : list string :=
  [ "/System/Applications"; "/System/Applications/Utilities" ].

(** [[f.replace(".app", "") for f in os.listdir(path) if f.endswith(".app")]]. *)
Definition bundle_names (entries : list string) : list string :=
  map (fun f => replace f ".app" "")
      (List.filter (fun f => endswith f ".app") entries).

(** The loop over [system_paths], [system_apps.update(apps)] being a union. *)
Fixpoint scan_paths (fs : filesystem) (paths : list string)
  (system_apps : gset string) : result (gset string) :=
  match paths with
  | [] => Ok system_apps
  | path :: paths' =>
      match fs path with
      | None => scan_paths fs paths' system_apps
      | Some (Directory entries) =>
          scan_paths fs paths' (system_apps ∪ list_to_set (bundle_names entries))
      | Some (Unlistable e) => Raise e
      end
  end.

Definition get_system_apps (fs : filesystem) : result (gset string) :=
  scan_paths fs system_paths ∅.

(** ** The inventory fetcher *)

(** The values [json.loads] returns.  A float is kept as its literal: the
    script never computes with numbers. *)
Inductive json : Type :=
| JNull
| JBool (b : bool)
| JInt (n : Z)
| JFloat (literal : string)
| JStr (s : string)
| JList (items : list json)
| JDict (items : list (string * json)).

(** The record of one application.  The fetcher fills the fields with
    whatever JSON values the inventory holds ([V := json]); the rest of
    the script works on text ([V := string]), which is what
    [system_profiler] emits for these five fields. *)
Record ApplicationRecord (V : Type) : Type := {
  name : V;
  path : V;
  version : V;
  obtained_from : V;
  last_modified : V
}.
Arguments name {V} _.
Arguments path {V} _.
Arguments version {V} _.
Arguments obtained_from {V} _.
Arguments last_modified {V} _.

(** What [subprocess.run] followed by [json.loads(result.stdout)] can give:
    the invocation raises, or the command completes with an exit status
    and [json.loads], a library function, raises or returns a value. *)
Inductive run_result : Type :=
| RunRaises (e : string)
| Completed (returncode : Z) (loaded : result json).

(** [d.get(k, default)]. *)
Definition get_or {V : Type} (d : list (string * V)) (k : string) (default : V) : V :=
  match dict_get k d with
  | Some v => v
  | None => default
  end.

(** [type(x).__name__]. *)
Definition type_name (x : json) : string :=
  match x with
  | JNull => "NoneType"
  | JBool _ => "bool"
  | JInt _ => "int"
  | JFloat _ => "float"
  | JStr _ => "str"
  | JList _ => "list"
  | JDict _ => "dict"
  end.

(** [x.get] where [x] need not be a dict; the text is that of Python's
    [AttributeError]. *)
Definition attr_get (x : json) : result (list (string * json)) :=
  match x with
  | JDict d => Ok d
  | _ => Raise ("'" +:+ type_name x +:+ "' object has no attribute 'get'")
  end.

(** [for app in x]: lists, strings (their characters, here one per byte)
    and dicts (their keys) can be iterated; on the other values Python
    raises a [TypeError] with this text. *)
Definition iterate (x : json) : result (list json) :=
  match x with
  | JList items => Ok items
  | JStr s => Ok (map (fun c => JStr (String c "")) (list_ascii_of_string s))
  | JDict d => Ok (map (fun kv => JStr (fst kv)) d)
  | _ => Raise ("'" +:+ type_name x +:+ "' object is not iterable")
  end.

Definition make_app_info (app : json) : result (ApplicationRecord json) :=
  match attr_get app with
  | Raise e => Raise e
  | Ok d =>
      Ok {| name := get_or d "_name" (JStr "Unknown");
            path := get_or d "path" (JStr "Unknown");
            version := get_or d "version" (JStr "Unknown");
            obtained_from := get_or d "obtained_from" (JStr "Unknown");
            last_modified := get_or d "lastModified" (JStr "Unknown") |}
  end.

Fixpoint collect_apps (apps : list json) (apps_info : list (ApplicationRecord json))
  : result (list (ApplicationRecord json)) :=
  match apps with
  | [] => Ok apps_info
  | app :: apps' =>
      match make_app_info app with
      | Raise e => Raise e
      | Ok app_info => collect_apps apps' (apps_info ++ [app_info])
      end
  end.

(** The body of the [try]. *)
Definition fetch (run : run_result) : result (list (ApplicationRecord json)) :=
  match run with
  | RunRaises e => Raise e
  | Completed _ (Raise e) => Raise e
  | Completed _ (Ok data) =>
      match attr_get data with
      | Raise e => Raise e
      | Ok d =>
          match iterate (get_or d "SPApplicationsDataType" (JList [])) with
          | Raise e => Raise e
          | Ok apps => collect_apps apps []
          end
      end
  end.

(** The printed texts and the returned list. *)
Definition get_installed_apps (run : run_result)
  : list string * list (ApplicationRecord json) :=
  match fetch run with
  | Ok apps_info => ([], apps_info)
  | Raise e => (["Error getting installed apps: " +:+ e], [])
  end.

(** A fetched record all of whose fields are text. *)
Definition as_text (app : ApplicationRecord json) : option (ApplicationRecord string) :=
  match name app, path app, version app, obtained_from app, last_modified app with
  | JStr n, JStr p, JStr v, JStr o, JStr m =>
      Some {| name := n; path := p; version := v; obtained_from := o;
              last_modified := m |}
  | _, _, _, _, _ => None
  end.

(** ** Formatting, filtering and the report *)

Definition source_map : list (string * string) :=
  [ ("mac_app_store", "App Store");
    ("identified_developer", "Verified Dev");
    ("unknown", "Unknown");
    ("apple", "Apple") ].

Definition excluded_apps : gset string :=
  {[ "GarageBand"; "iMovie"; "Keynote"; "Numbers"; "Pages" ]}.

Definition system_prefixes : list string :=
  [ "/System/Library/"; "/System/Applications/"; "/Library/Apple/" ].

(** One element of a list in [categorized_apps]. *)
Record app_info : Type := {
  info_name : string;
  info_version : string;
  info_source : string
}.

(** [categorized_apps[category].append(app_info)] on a [defaultdict(list)]
    kept in insertion order. *)
Fixpoint dict_append {V : Type} (category : string) (x : V)
  (d : list (string * list V)) : list (string * list V) :=
  match d with
  | [] => [(category, [x])]
  | (k, l) :: d' =>
      if String.eqb category k then (k, l ++ [x]) :: d'
      else (k, l) :: dict_append category x d'
  end.

(** [sorted(l, key=key)]: Python's sort is stable and compares keys with
    [<]; so is insertion from the right, each element going in front of
    the first one whose key is not smaller. *)
Section Sorting.
Context {A : Type} (key : A -> string).

Fixpoint insert_by (x : A) (l : list A) : list A :=
  match l with
  | [] => [x]
  | y :: l' =>
      if String.ltb (key y) (key x) then y :: insert_by x l' else x :: l
  end.

Definition sorted_by (l : list A) : list A := foldr insert_by [] l.
End Sorting.

Definition newline : string := String "010"%char "".

(** [c * n]. *)
Fixpoint times (c : string) (n : nat) : string :=
  match n with
  | O => ""
  | S n' => c +:+ times c n'
  end.

Definition is_empty {A : Type} (l : list A) : bool :=
  match l with [] => true | _ => false end.

Section Report.
Variable lower : string -> string.

Definition format_source (source : string) : string :=
  get_or source_map (lower source) source.

Definition should_include_app (app : ApplicationRecord string) : bool :=
  if bool_decide (name app ∈ excluded_apps) then false
  else if String.eqb (lower (obtained_from app)) "apple" then false
  else
    let app_path := path app in
    if existsb (fun prefix => startswith app_path prefix) system_prefixes
    then false
    else true.

(** One turn of the first loop of [main]. *)
Definition categorize_app (system_apps : gset string)
  (categorized_apps : list (string * list app_info))
  (app : ApplicationRecord string) : list (string * list app_info) :=
  let app_name := name app in
  if bool_decide (app_name ∉ system_apps) && should_include_app app then
    let category := get_app_category lower app_name (path app) in
    let app_info := {| info_name := app_name;
                       info_version := version app;
                       info_source := format_source (obtained_from app) |} in
    dict_append category app_info categorized_apps
  else categorized_apps.

Definition categorize (system_apps : gset string)
  (installed_apps : list (ApplicationRecord string))
  : list (string * list app_info) :=
  fold_left (categorize_app system_apps) installed_apps [].

(** The two [print] calls for one entry. *)
Definition print_app (out : list string) (app : app_info) : list string :=
  if negb (String.eqb (info_version app) "Unknown")
  then out ++ ["• " +:+ info_name app +:+ " (v" +:+ info_version app
                 +:+ ") [" +:+ info_source app +:+ "]"]
  else out ++ ["• " +:+ info_name app +:+ " [" +:+ info_source app +:+ "]"].

(** One turn of the second loop of [main].  The items of the dict are
    pairs whose first components differ, so they are sorted by them.  A
    category is one of the ASCII names the classifier returns, so [len]
    counts its bytes. *)
Definition print_category (out : list string)
  (item : string * list app_info) : list string :=
  let '(category, apps) := item in
  if negb (is_empty apps) then
    let filtered_apps :=
      List.filter (fun app => negb (String.eqb (info_source app) "Apple")) apps in
    if negb (is_empty filtered_apps) then
      let out := out ++ [newline +:+ category +:+ ":"] in
      let out := out ++ [times "-" (String.length category)] in
      fold_left print_app (sorted_by info_name filtered_apps) out
    else out
  else out.

(** [main] from the results of [get_system_apps] and [get_installed_apps]
    on: the texts it prints, one per [print]. *)
Definition main (system_apps : gset string)
  (installed_apps : list (ApplicationRecord string)) : list string :=
  let out := ["Analyzing installed applications..."] in
  let categorized_apps := categorize system_apps installed_apps in
  let out := out ++ [newline +:+ "Third-Party Applications by Category:"] in
  let out := out ++ [times "=" 50] in
  fold_left print_category (sorted_by fst categorized_apps) out.

(** [main] with the test [app["source"] != "Apple"] taken out of the
    second loop; used to state that the test changes nothing. *)
Definition print_category_unfiltered (out : list string)
  (item : string * list app_info) : list string :=
  let '(category, apps) := item in
  if negb (is_empty apps) then
    let out := out ++ [newline +:+ category +:+ ":"] in
    let out := out ++ [times "-" (String.length category)] in
    fold_left print_app (sorted_by info_name apps) out
  else out.

Definition main_unfiltered (system_apps : gset string)
  (installed_apps : list (ApplicationRecord string)) : list string :=
  let out := ["Analyzing installed applications..."] in
  let categorized_apps := categorize system_apps installed_apps in
  let out := out ++ [newline +:+ "Third-Party Applications by Category:"] in
  let out := out ++ [times "=" 50] in
  fold_left print_category_unfiltered (sorted_by fst categorized_apps) out.
End Report.

(** What reaches standard output: every printed text followed by a newline. *)
Definition stdout (out : list string) : string :=
  String.concat "" (map (fun s => s +:+ newline) out).

(** ** Notions used to state the properties *)

(** No keyword of a row of the table occurs in the lowered name. *)
Definition no_keyword (lower : string -> string) (app_name_lower : string)
  (item : string * list string) : Prop :=
  any_keyword lower app_name_lower (snd item) = false.

(** The command failed: the invocation raised, the exit status is not
    zero, or the output could not be parsed. *)
Definition command_failed (run : run_result) : Prop :=
  match run with
  | RunRaises _ => True
  | Completed returncode loaded => returncode <> 0%Z \/ exists e, loaded = Raise e
  end.

(** The fetcher printed one error line and returned the empty list. *)
Definition logged_and_empty (r : list string * list (ApplicationRecord json)) : Prop :=
  exists e, r = (["Error getting installed apps: " +:+ e], []).

(** A run that exits with status 1 after printing a well-formed inventory
    of one application. *)
Definition run_exit_1_with_inventory : run_result :=
  Completed 1
    (Ok (JDict [ ("SPApplicationsDataType",
                  JList [ JDict [ ("_name", JStr "Obsidian");
                                  ("path", JStr "/Applications/Obsidian.app");
                                  ("version", JStr "1.2.0");
                                  ("obtained_from", JStr "identified_developer") ] ]) ])).

(** A file system whose first system directory holds a bundle with ".app"
    inside its name; the second directory does not exist. *)
Definition fs_dotted_bundle : filesystem :=
  fun p =>
    if String.eqb p "/System/Applications"
    then Some (Directory [ "Safari.app"; "Web.apps.app"; "Utilities" ])
    else None.

(** The entry [main] builds for a record. *)
Definition make_entry (lower : string -> string) (app : ApplicationRecord string)
  : app_info :=
  {| info_name := name app;
     info_version := version app;
     info_source := format_source lower (obtained_from app) |}.

(** The entries of a category that are not attributed to "Apple". *)
Definition surviving (apps : list app_info) : list app_info :=
  List.filter (fun app => negb (String.eqb (info_source app) "Apple")) apps.

(** The blocks of the report: the categories in the order they are printed,
    each with the entries in the order they are printed. *)
Definition blocks_of (sorted_items : list (string * list app_info))
  : list (string * list app_info) :=
  List.filter (fun block => negb (is_empty (snd block)))
    (map (fun item => (fst item, sorted_by info_name (surviving (snd item))))
         sorted_items).

Definition report_blocks (lower : string -> string) (system_apps : gset string)
  (installed_apps : list (ApplicationRecord string)) : list (string * list app_info) :=
  blocks_of (sorted_by fst (categorize lower system_apps installed_apps)).

(** The line of an entry, as the specification words it. *)
Definition entry_line (app : app_info) : string :=
  if decide (info_version app = "Unknown")
  then "• " +:+ info_name app +:+ " [" +:+ info_source app +:+ "]"
  else "• " +:+ info_name app +:+ " (v" +:+ info_version app +:+ ") ["
         +:+ info_source app +:+ "]".

Definition report_header : list string :=
  [ "Analyzing installed applications...";
    newline +:+ "Third-Party Applications by Category:";
    times "=" 50 ].

Definition render_block (block : string * list app_info) : list string :=
  [ newline +:+ fst block +:+ ":"; times "-" (String.length (fst block)) ]
  ++ map entry_line (snd block).

(** Lexicographic order of keys, of the names of entries and of the
    categories of items. *)
Definition key_le {A : Type} (key : A -> string) (a b : A) : Prop :=
  String.le (key a) (key b).

Definition name_le (a b : app_info) : Prop := String.le (info_name a) (info_name b).
Definition category_lt (a b : string * list app_info) : Prop :=
  String.le (fst a) (fst b) /\ fst a <> fst b.

(** Every entry of the dict was made from a record of the inventory that
    is not a system app and passes the filter, and sits under the
    category of that record; no list of the dict is empty. *)
Definition made_from (lower : string -> string) (system_apps : gset string)
  (installed_apps : list (ApplicationRecord string))
  (category : string) (e : app_info) : Prop :=
  exists app, app ∈ installed_apps
              /\ (name app ∉ system_apps)
              /\ should_include_app lower app = true
              /\ category = get_app_category lower (name app) (path app)
              /\ e = make_entry lower app.

Definition item_ok (lower : string -> string) (system_apps : gset string)
  (installed_apps : list (ApplicationRecord string))
  (item : string * list app_info) : Prop :=
  snd item <> [] /\ Forall (made_from lower system_apps installed_apps (fst item)) (snd item).

(** ** Notions used to state further properties *)

(** The test of the first loop of [main]: the record is kept. *)
Definition kept (lower : string -> string) (system_apps : gset string)
  (app : ApplicationRecord string) : bool :=
  bool_decide (name app ∉ system_apps) && should_include_app lower app.

(** The entries of the kept records of a category, in the order of the
    inventory. *)
Definition entries_of_category (lower : string -> string) (system_apps : gset string)
  (category : string) (installed_apps : list (ApplicationRecord string))
  : list app_info :=
  map (make_entry lower)
    (List.filter
       (fun app =>
          kept lower system_apps app
          && String.eqb (get_app_category lower (name app) (path app)) category)
       installed_apps).

(** The record the fetcher makes of one object of the inventory. *)
Definition record_of_dict (d : list (string * json)) : ApplicationRecord json :=
  {| name := get_or d "_name" (JStr "Unknown");
     path := get_or d "path" (JStr "Unknown");
     version := get_or d "version" (JStr "Unknown");
     obtained_from := get_or d "obtained_from" (JStr "Unknown");
     last_modified := get_or d "lastModified" (JStr "Unknown") |}.

(** The JSON values Python cannot iterate over. *)
Definition not_iterable (x : json) : Prop :=
  match x with
  | JNull | JBool _ | JInt _ | JFloat _ => True
  | JStr _ | JList _ | JDict _ => False
  end.

(** The line the fetcher prints for an error whose text is [e]. *)
Definition error_line (e : string) : string := "Error getting installed apps: " +:+ e.

(** [sub] occurs in [s]; [p] starts [s]; [p] ends [s]. *)
Definition occurs_in (sub s : string) : Prop := exists a b, s = a +:+ sub +:+ b.
Definition starts (p s : string) : Prop := exists rest, s = p +:+ rest.
Definition ends (p s : string) : Prop := exists stem, s = stem +:+ p.

(** * Properties *)

(** ** The script on the scenarios of its specification *)

Example classify_obsidian :
  get_app_category ascii_lower "Obsidian" "/Applications/Obsidian.app" = "Productivity".
Proof. reflexivity. Qed.

Example classify_vubuntu :
  get_app_category ascii_lower "vUbuntu 22.04" "/Applications/vUbuntu.app" = "Virtualization".
Proof. reflexivity. Qed.

Example classify_code_browser :
  get_app_category ascii_lower "Code Browser" "" = "Development".
Proof. reflexivity. Qed.

(** Without its override, "Google Slides" falls to the keyword "IDE". *)
Example classify_slides_without_override :
  scan ascii_lower (ascii_lower "Google Slides") categories = Some "Development".
Proof. reflexivity. Qed.

Example endswith_app :
  endswith "Safari.app" ".app" = true /\ endswith "Safari.apps" ".app" = false.
Proof. split; reflexivity. Qed.

(** ** Dictionaries *)

Lemma dict_get_elem {V : Type} (k : string) (v : V) (d : list (string * V)) :
  dict_get k d = Some v -> (k, v) ∈ d.
Proof.
  induction d as [|[k' v'] d IH]; simpl; [discriminate|].
  destruct (String.eqb_spec k k') as [->|Hne].
  - intros [= ->]. left.
  - intros H. right. auto.
Qed.

(** ** The classifier *)

Section ClassifierFacts.
Variable lower : string -> string.

Lemma scan_Some (nl : string) (table : list (string * list string)) (c : string) :
  scan lower nl table = Some c ->
  exists i keywords,
    table !! i = Some (c, keywords) /\
    any_keyword lower nl keywords = true /\
    forall i' item, i' < i -> table !! i' = Some item -> no_keyword lower nl item.
Proof.
  induction table as [|[c' kws] table IH]; simpl; [discriminate|].
  destruct (any_keyword lower nl kws) eqn:Hany.
  - intros [= ->]. exists 0, kws. split; [done|]. split; [done|]. intros; lia.
  - intros H. destruct (IH H) as (i & keywords & Hi & Hk & Hbefore).
    exists (S i), keywords. split; [done|]. split; [done|].
    intros [|i'] item Hlt Hlook; simpl in Hlook.
    + injection Hlook as <-. exact Hany.
    + apply (Hbefore i'); [lia|done].
Qed.

Lemma scan_None (nl : string) (table : list (string * list string)) :
  scan lower nl table = None -> Forall (no_keyword lower nl) table.
Proof.
  induction table as [|[c' kws] table IH]; simpl; [constructor|].
  destruct (any_keyword lower nl kws) eqn:Hany; [discriminate|].
  intros H. constructor; [exact Hany|auto].
Qed.

(** The scan returns the category of the first row that has a keyword. *)
Lemma scan_first (nl : string) (table : list (string * list string))
  (i : nat) (c : string) (keywords : list string) :
  table !! i = Some (c, keywords) ->
  any_keyword lower nl keywords = true ->
  (forall i' item, i' < i -> table !! i' = Some item -> no_keyword lower nl item) ->
  scan lower nl table = Some c.
Proof.
  revert i. induction table as [|[c' kws] table IH]; intros i Hi Hk Hbefore.
  - discriminate.
  - destruct i as [|i]; simpl in *.
    + injection Hi as -> ->. by rewrite Hk.
    + rewrite (Hbefore 0 (c', kws)); [|lia|done].
      apply (IH i); [done..|].
      intros i' item Hlt Hlook. apply (Hbefore (S i')); [lia|done].
Qed.

Lemma scan_categories_name (nl c : string) :
  scan lower nl categories = Some c -> c ∈ CategoryName.
Proof.
  intros H. apply scan_Some in H as (i & keywords & Hi & _ & _).
  assert (Hall : Forall (fun item => fst item ∈ CategoryName) categories).
  { unfold categories, CategoryName. repeat constructor; simpl; set_solver. }
  rewrite Forall_lookup in Hall. exact (Hall _ _ Hi).
Qed.

Lemma special_cases_name (k c : string) :
  dict_get k special_cases = Some c -> c ∈ CategoryName.
Proof.
  intros H. apply dict_get_elem in H.
  assert (Hall : Forall (fun item => snd item ∈ CategoryName) special_cases).
  { unfold special_cases, CategoryName. repeat constructor; simpl; set_solver. }
  rewrite Forall_forall in Hall. exact (Hall _ H).
Qed.
End ClassifierFacts.



(** C9. The classifier does not look at the path. *)
Theorem classifier_ignores_path (lower : string -> string) (app_name p1 p2 : string) :
  get_app_category lower app_name p1 = get_app_category lower app_name p2.
Proof. reflexivity. Qed.

(** ** The system-app enumerator *)

Example bundle_names_plain :
  bundle_names [ "Safari.app"; "Utilities"; "Mail.app"; ".localized" ] = [ "Safari"; "Mail" ].
Proof. reflexivity. Qed.

(** A path that does not exist adds nothing and raises nothing. *)
Lemma scan_paths_missing (fs : filesystem) (path : string) (paths : list string)
  (system_apps : gset string) :
  fs path = None ->
  scan_paths fs (path :: paths) system_apps = scan_paths fs paths system_apps.
Proof. intros H. simpl. by rewrite H. Qed.

Lemma get_system_apps_no_paths (fs : filesystem) :
  (forall path, fs path = None) -> get_system_apps fs = Ok ∅.
Proof.
  intros H. unfold get_system_apps, system_paths.
  by rewrite !scan_paths_missing.
Qed.

(** The names taken from a directory are the entries with the suffix, each
    with every ".app" removed. *)
Lemma elem_of_bundle_names (entries : list string) (n : string) :
  n ∈ bundle_names entries <->
  exists f, f ∈ entries /\ endswith f ".app" = true /\ n = replace f ".app" "".
Proof.
  unfold bundle_names. rewrite list_elem_of_In, in_map_iff. split.
  - intros (f & <- & Hf). apply filter_In in Hf as [Hin He].
    exists f. by rewrite list_elem_of_In.
  - intros (f & Hin & He & ->). exists f. split; [done|].
    apply filter_In. by rewrite <- list_elem_of_In.
Qed.

(** C6, at a bundle whose name has ".app" inside it.  The entry
    "Web.apps.app" ends with the suffix; stripping the suffix leaves
    "Web.apps", but the enumerator returns "Webs": [replace] removes every
    ".app", not the last one. *)
Theorem get_system_apps_strips_inner_app :
  exists system_apps,
    get_system_apps fs_dotted_bundle = Ok system_apps
    /\ ("Safari" ∈ system_apps)
    /\ ("Webs" ∈ system_apps)
    /\ ("Web.apps" ∉ system_apps)
    /\ ("Utilities" ∉ system_apps).
Proof.
  eexists. split; [reflexivity|].
  repeat split; apply (bool_decide_unpack _); vm_compute; exact I.
Qed.

(** ** The inventory fetcher *)

Example fetch_inventory :
  get_installed_apps
    (Completed 0
       (Ok (JDict [ ("SPApplicationsDataType",
                     JList [ JDict [ ("_name", JStr "Obsidian");
                                     ("version", JStr "1.2.0") ] ]) ])))
  = ([], [ {| name := JStr "Obsidian"; path := JStr "Unknown";
              version := JStr "1.2.0"; obtained_from := JStr "Unknown";
              last_modified := JStr "Unknown" |} ]).
Proof. reflexivity. Qed.

Example fetch_missing_key : get_installed_apps (Completed 0 (Ok (JDict []))) = ([], []).
Proof. reflexivity. Qed.

(** The exit status is never read. *)
Lemma fetch_ignores_returncode (rc1 rc2 : Z) (loaded : result json) :
  fetch (Completed rc1 loaded) = fetch (Completed rc2 loaded).
Proof. reflexivity. Qed.

(** C5 as stated fails: the command exits with status 1, its output is a
    well-formed inventory, and the fetcher returns the record and prints
    nothing. *)
Lemma fetcher_nonzero_exit_not_recovered :
  command_failed run_exit_1_with_inventory
  /\ get_installed_apps run_exit_1_with_inventory
     = ([], [ {| name := JStr "Obsidian";
                 path := JStr "/Applications/Obsidian.app";
                 version := JStr "1.2.0";
                 obtained_from := JStr "identified_developer";
                 last_modified := JStr "Unknown" |} ])
  /\ ~ logged_and_empty (get_installed_apps run_exit_1_with_inventory).
Proof.
  split; [left; discriminate|]. split; [reflexivity|].
  intros [e He]. discriminate He.
Qed.

Lemma collect_apps_first_bad (ds : list (list (string * json))) (x : json)
  (rest : list json) (apps_info : list (ApplicationRecord json)) :
  (forall d, x <> JDict d) ->
  collect_apps (map JDict ds ++ x :: rest) apps_info
  = Raise ("'" +:+ type_name x +:+ "' object has no attribute 'get'").
Proof.
  intros Hx. revert apps_info.
  induction ds as [|d ds IH]; intros apps_info; simpl.
  - destruct x; try reflexivity. by destruct (Hx items).
  - apply IH.
Qed.

(** C5, amended.  The fetcher prints one error line, with the text of the
    error, and returns the empty list: when the invocation raises; when
    [json.loads] rejects the output; when the parsed output is not an
    object; when the value under the inventory key cannot be iterated;
    when it is a list one of whose elements is not an object (the first
    such element gives the text); and when it is a non-empty string or
    object, whose elements are strings.  All this whatever the exit status,
    which is not read: a run is handled like the run with status 0 and the
    same output.  A run gives either that error line and no record, or
    records and no line. *)
Theorem fetcher_recovers_from_raised_errors :
  (forall e, get_installed_apps (RunRaises e) = ([error_line e], []))
  /\ (forall returncode e,
        get_installed_apps (Completed returncode (Raise e)) = ([error_line e], []))
  /\ (forall returncode data,
        (forall d, data <> JDict d) ->
        get_installed_apps (Completed returncode (Ok data))
        = ([error_line ("'" +:+ type_name data +:+ "' object has no attribute 'get'")],
           []))
  /\ (forall returncode d x,
        get_or d "SPApplicationsDataType" (JList []) = x ->
        not_iterable x ->
        get_installed_apps (Completed returncode (Ok (JDict d)))
        = ([error_line ("'" +:+ type_name x +:+ "' object is not iterable")], []))
  /\ (forall returncode d ds x rest,
        get_or d "SPApplicationsDataType" (JList []) = JList (map JDict ds ++ x :: rest) ->
        (forall d', x <> JDict d') ->
        get_installed_apps (Completed returncode (Ok (JDict d)))
        = ([error_line ("'" +:+ type_name x +:+ "' object has no attribute 'get'")],
           []))
  /\ (forall returncode d x,
        get_or d "SPApplicationsDataType" (JList []) = x ->
        (exists c s, x = JStr (String c s)) \/ (exists kv kvs, x = JDict (kv :: kvs)) ->
        get_installed_apps (Completed returncode (Ok (JDict d)))
        = ([error_line "'str' object has no attribute 'get'"], []))
  /\ (forall returncode loaded,
        get_installed_apps (Completed returncode loaded)
        = get_installed_apps (Completed 0 loaded))
  /\ (forall run, logged_and_empty (get_installed_apps run)
                  \/ exists apps_info, get_installed_apps run = ([], apps_info)).
Proof.
  split; [reflexivity|]. split; [reflexivity|].
  split; [|split; [|split; [|split; [|split; [reflexivity|]]]]].
  - intros returncode data Hshape. unfold get_installed_apps, fetch.
    destruct data; try reflexivity. by destruct (Hshape items).
  - intros returncode d x Hx Hnot. unfold get_installed_apps, fetch. simpl.
    rewrite Hx. by destruct x.
  - intros returncode d ds x rest Hx Hbad. unfold get_installed_apps, fetch. simpl.
    rewrite Hx. simpl. by rewrite collect_apps_first_bad.
  - intros returncode d x Hx Hshape. unfold get_installed_apps, fetch. simpl.
    rewrite Hx. by destruct Hshape as [(c & s' & ->)|([k v] & kvs & ->)].
  - intros run. unfold get_installed_apps.
    destruct (fetch run) as [apps_info|e]; [right; by eexists|left; by eexists].
Qed.

Lemma fetcher_recovers_from_raised_errors_witness :
  get_installed_apps
    (Completed 1 (Ok (JDict [ ("SPApplicationsDataType", JInt 5) ])))
  = ([ "Error getting installed apps: 'int' object is not iterable" ], [])
  /\ get_installed_apps
       (Completed 0
          (Ok (JDict [ ("SPApplicationsDataType",
                        JList [ JDict [ ("_name", JStr "Obsidian") ]; JNull;
                                JStr "x" ]) ])))
     = ([ "Error getting installed apps: 'NoneType' object has no attribute 'get'" ],
        [])
  /\ get_installed_apps (Completed 1 (Ok (JList [])))
     = ([ "Error getting installed apps: 'list' object has no attribute 'get'" ], []).
Proof.
  split; [|split].
  - exact (proj1 (proj2 (proj2 (proj2 fetcher_recovers_from_raised_errors))) 1%Z
             [ ("SPApplicationsDataType", JInt 5) ] (JInt 5) eq_refl I).
  - apply (proj1 (proj2 (proj2 (proj2 (proj2 fetcher_recovers_from_raised_errors))))
             0%Z _ [ [ ("_name", JStr "Obsidian") ] ] JNull [ JStr "x" ]).
    + reflexivity.
    + intros d'. discriminate.
  - apply (proj1 (proj2 (proj2 fetcher_recovers_from_raised_errors)) 1%Z (JList [])).
    intros d. discriminate.
Defined.

(** ** Sorting *)

Lemma ltb_false_le (x y : string) : String.ltb y x = false -> String.le x y.
Proof.
  unfold String.le, String.ltb, String.leb.
  rewrite (String.compare_antisym x y).
  destruct (String.compare y x); simpl; done.
Qed.

Lemma ltb_true_le (x y : string) : String.ltb y x = true -> String.le y x.
Proof.
  unfold String.le, String.ltb, String.leb.
  destruct (String.compare y x); simpl; done.
Qed.

Section SortingFacts.
Context {A : Type} (key : A -> string).

Lemma insert_by_perm (x : A) (l : list A) : insert_by key x l ≡ₚ x :: l.
Proof.
  induction l as [|y l IH]; simpl; [done|].
  destruct (String.ltb (key y) (key x)); [|done].
  rewrite IH. apply perm_swap.
Qed.

Lemma sorted_by_perm (l : list A) : sorted_by key l ≡ₚ l.
Proof.
  induction l as [|x l IH]; simpl; [done|].
  rewrite insert_by_perm. by rewrite IH.
Qed.

Lemma elem_of_sorted_by (x : A) (l : list A) : x ∈ sorted_by key l <-> x ∈ l.
Proof. by rewrite sorted_by_perm. Qed.

Lemma sorted_by_empty (l : list A) : is_empty (sorted_by key l) = is_empty l.
Proof.
  destruct l as [|x l]; [done|].
  pose proof (sorted_by_perm (x :: l)) as Hp.
  destruct (sorted_by key (x :: l)); [|done].
  by apply Permutation_nil_l in Hp.
Qed.

Lemma insert_by_sorted (x : A) (l : list A) :
  StronglySorted (key_le key) l -> StronglySorted (key_le key) (insert_by key x l).
Proof.
  induction 1 as [|y l Hl IH Hy]; simpl.
  - by repeat constructor.
  - destruct (String.ltb (key y) (key x)) eqn:Hlt.
    + constructor; [done|]. rewrite insert_by_perm.
      constructor; [|done]. by apply ltb_true_le.
    + apply ltb_false_le in Hlt.
      constructor; [by constructor|]. constructor; [done|].
      eapply Forall_impl; [exact Hy|]. intros z Hz.
      unfold key_le in *. by etrans.
Qed.

Lemma sorted_by_sorted (l : list A) : StronglySorted (key_le key) (sorted_by key l).
Proof.
  induction l as [|x l IH]; simpl; [constructor|]. by apply insert_by_sorted.
Qed.

(** With keys that all differ, the order is strict. *)
Lemma sorted_by_strict (l : list A) :
  NoDup (map key l) ->
  StronglySorted (fun a b => key_le key a b /\ key a <> key b) (sorted_by key l).
Proof.
  intros Hnd.
  assert (Hnd' : NoDup (map key (sorted_by key l))).
  { by rewrite sorted_by_perm. }
  pose proof (sorted_by_sorted l) as Hs.
  induction Hs as [|x l' Hl' IH Hx]; [constructor|].
  simpl in Hnd'. apply NoDup_cons in Hnd' as [Hnotin Hnd'].
  constructor; [by apply IH|].
  rewrite Forall_forall in Hx. apply Forall_forall. intros z Hz.
  split; [by apply Hx|]. intros Heq. apply Hnotin.
  rewrite Heq. apply list_elem_of_fmap. by exists z.
Qed.
End SortingFacts.

(** ** The dict of categories *)

Section DictFacts.
Context {V : Type}.

Lemma dict_append_keys (k : string) (x : V) (d : list (string * list V)) (c : string) :
  c ∈ map fst (dict_append k x d) <-> c = k \/ c ∈ map fst d.
Proof.
  induction d as [|[k' l] d IH]; simpl.
  - rewrite list_elem_of_singleton, elem_of_nil. tauto.
  - destruct (String.eqb_spec k k') as [->|Hne]; simpl.
    + rewrite !elem_of_cons. tauto.
    + rewrite !elem_of_cons, IH. tauto.
Qed.

Lemma dict_append_NoDup (k : string) (x : V) (d : list (string * list V)) :
  NoDup (map fst d) -> NoDup (map fst (dict_append k x d)).
Proof.
  induction d as [|[k' l] d IH]; simpl.
  - intros _. apply NoDup_singleton.
  - intros [Hnotin Hnd]%NoDup_cons.
    destruct (String.eqb_spec k k') as [->|Hne]; simpl.
    + by apply NoDup_cons.
    + apply NoDup_cons. split; [|by apply IH].
      rewrite dict_append_keys. intros [->|Hin]; done.
Qed.

Lemma dict_append_Forall (Q : string * list V -> Prop) (k : string) (x : V)
  (d : list (string * list V)) :
  Q (k, [x]) ->
  (forall l, Q (k, l) -> Q (k, l ++ [x])) ->
  Forall Q d -> Forall Q (dict_append k x d).
Proof.
  intros Hnew Hgrow. induction 1 as [|[k' l] d Hkl Hd IH]; simpl.
  - by repeat constructor.
  - destruct (String.eqb_spec k k') as [->|Hne]; constructor; auto.
Qed.

(** Two items with the same key are the same item. *)
Lemma dict_item_unique (d : list (string * list V)) (c : string) (l1 l2 : list V) :
  NoDup (map fst d) -> (c, l1) ∈ d -> (c, l2) ∈ d -> l1 = l2.
Proof.
  induction d as [|[k l] d IH]; simpl; [by intros _ ?%elem_of_nil|].
  intros [Hnotin Hnd]%NoDup_cons H1 H2.
  apply elem_of_cons in H1 as [H1|H1]; apply elem_of_cons in H2 as [H2|H2].
  - congruence.
  - injection H1 as <- <-. destruct Hnotin.
    apply list_elem_of_fmap. by exists (c, l2).
  - injection H2 as <- <-. destruct Hnotin.
    apply list_elem_of_fmap. by exists (c, l1).
  - by apply IH.
Qed.
End DictFacts.

(** ** The report *)

Section ReportFacts.
Variable lower : string -> string.

Lemma print_app_line (out : list string) (app : app_info) :
  print_app out app = out ++ [entry_line app].
Proof.
  unfold print_app, entry_line.
  destruct (String.eqb_spec (info_version app) "Unknown") as [Heq|Hne]; simpl.
  - by rewrite decide_True.
  - by rewrite decide_False.
Qed.

Lemma fold_print_app (apps : list app_info) (out : list string) :
  fold_left print_app apps out = out ++ map entry_line apps.
Proof.
  revert out. induction apps as [|app apps IH]; intros out; simpl.
  - by rewrite app_nil_r.
  - by rewrite IH, print_app_line, <- app_assoc.
Qed.

Lemma fold_print_category (items : list (string * list app_info)) (out : list string) :
  fold_left print_category items out
  = out ++ concat (map render_block (blocks_of items)).
Proof.
  revert out. induction items as [|[category apps] items IH]; intros out.
  - simpl. by rewrite app_nil_r.
  - cbn [fold_left]. rewrite IH. unfold blocks_of. cbn [map List.filter fst snd].
    fold (surviving apps). unfold print_category. fold (surviving apps).
    rewrite sorted_by_empty.
    destruct apps as [|app apps]; [done|]. cbn [is_empty negb].
    destruct (surviving (app :: apps)) as [|e es] eqn:Hsurv; [done|].
    cbn [is_empty negb map concat]. unfold render_block at 2. cbn [fst snd].
    rewrite fold_print_app. by rewrite <- !app_assoc.
Qed.

(** The texts [main] prints are the header and then the blocks. *)
Lemma main_blocks (system_apps : gset string)
  (installed_apps : list (ApplicationRecord string)) :
  main lower system_apps installed_apps
  = report_header
    ++ concat (map render_block (report_blocks lower system_apps installed_apps)).
Proof. unfold main, report_blocks. by rewrite fold_print_category. Qed.

Lemma elem_of_blocks_of (items : list (string * list app_info))
  (block : string * list app_info) :
  block ∈ blocks_of items <->
  exists apps, (fst block, apps) ∈ items
               /\ snd block = sorted_by info_name (surviving apps)
               /\ snd block <> [].
Proof.
  unfold blocks_of. rewrite list_elem_of_In, filter_In, in_map_iff. split.
  - intros [([c apps] & <- & Hin) Hne]. exists apps. simpl in *.
    split; [by apply list_elem_of_In|]. split; [done|].
    by destruct (sorted_by info_name (surviving apps)).
  - intros (apps & Hin & Heq & Hne). destruct block as [c l]. simpl in *.
    split.
    + exists (c, apps). simpl. split; [by rewrite Heq|by apply list_elem_of_In].
    + by destruct l.
Qed.

(** Records that are skipped leave the dict as it is. *)
Lemma categorize_app_skip (system_apps : gset string)
  (d : list (string * list app_info)) (app : ApplicationRecord string) :
  name app ∈ system_apps \/ should_include_app lower app = false ->
  categorize_app lower system_apps d app = d.
Proof.
  intros H. unfold categorize_app.
  destruct H as [H|H].
  - rewrite bool_decide_false; [done|]. by intros Hn.
  - rewrite H. by rewrite andb_false_r.
Qed.

Lemma categorize_skip (system_apps : gset string)
  (before after : list (ApplicationRecord string)) (app : ApplicationRecord string) :
  name app ∈ system_apps \/ should_include_app lower app = false ->
  categorize lower system_apps (before ++ app :: after)
  = categorize lower system_apps (before ++ after).
Proof.
  intros H. unfold categorize. rewrite !fold_left_app. simpl.
  by rewrite categorize_app_skip.
Qed.

Lemma main_skip (system_apps : gset string)
  (before after : list (ApplicationRecord string)) (app : ApplicationRecord string) :
  name app ∈ system_apps \/ should_include_app lower app = false ->
  main lower system_apps (before ++ app :: after)
  = main lower system_apps (before ++ after).
Proof. intros H. unfold main. by rewrite categorize_skip. Qed.

Lemma categorize_fold_ok (system_apps : gset string)
  (installed_apps apps : list (ApplicationRecord string))
  (d : list (string * list app_info)) :
  Forall (fun app => app ∈ installed_apps) apps ->
  Forall (item_ok lower system_apps installed_apps) d ->
  Forall (item_ok lower system_apps installed_apps)
    (fold_left (categorize_app lower system_apps) apps d).
Proof.
  intros Happs. revert d.
  induction Happs as [|app apps Hin _ IH]; intros d Hd; simpl; [done|].
  apply IH. unfold categorize_app.
  destruct (bool_decide (name app ∉ system_apps)) eqn:Hsys; [|done].
  destruct (should_include_app lower app) eqn:Hinc; [|done].
  cbn [andb]. apply bool_decide_eq_true in Hsys.
  assert (Hmade : made_from lower system_apps installed_apps
                    (get_app_category lower (name app) (path app))
                    (make_entry lower app)) by (by exists app).
  apply dict_append_Forall; [| |done].
  - split; [done|]. by repeat constructor.
  - intros l [_ Hl]. split; [by destruct l|].
    apply Forall_app. split; [done|]. by repeat constructor.
Qed.

Lemma categorize_ok (system_apps : gset string)
  (installed_apps : list (ApplicationRecord string)) :
  Forall (item_ok lower system_apps installed_apps)
    (categorize lower system_apps installed_apps).
Proof.
  apply categorize_fold_ok; [|constructor].
  apply Forall_forall. auto.
Qed.

Lemma categorize_fold_NoDup (system_apps : gset string)
  (apps : list (ApplicationRecord string)) (d : list (string * list app_info)) :
  NoDup (map fst d) ->
  NoDup (map fst (fold_left (categorize_app lower system_apps) apps d)).
Proof.
  revert d. induction apps as [|app apps IH]; intros d Hd; simpl; [done|].
  apply IH. unfold categorize_app.
  destruct (bool_decide (name app ∉ system_apps) && should_include_app lower app);
    [by apply dict_append_NoDup|done].
Qed.

Lemma categorize_NoDup (system_apps : gset string)
  (installed_apps : list (ApplicationRecord string)) :
  NoDup (map fst (categorize lower system_apps installed_apps)).
Proof. apply categorize_fold_NoDup. constructor. Qed.

(** What a reported entry is. *)
Lemma reported_entry (system_apps : gset string)
  (installed_apps : list (ApplicationRecord string))
  (block : string * list app_info) (e : app_info) :
  block ∈ report_blocks lower system_apps installed_apps ->
  e ∈ snd block ->
  info_source e <> "Apple"
  /\ made_from lower system_apps installed_apps (fst block) e.
Proof.
  unfold report_blocks. intros Hb He.
  apply elem_of_blocks_of in Hb as (apps & Hin & Heq & _).
  rewrite Heq, elem_of_sorted_by in He.
  unfold surviving in He. apply list_elem_of_In, filter_In in He as [He Hsrc].
  split.
  - intros Happle. rewrite Happle in Hsrc. discriminate.
  - apply elem_of_sorted_by in Hin.
    pose proof (categorize_ok system_apps installed_apps) as Hok.
    rewrite Forall_forall in Hok. destruct (Hok _ Hin) as [_ Hall].
    rewrite Forall_forall in Hall. apply Hall. by apply list_elem_of_In.
Qed.
End ReportFacts.

(** ** The order of the report *)

Lemma blocks_of_cons (item : string * list app_info)
  (items : list (string * list app_info)) :
  blocks_of (item :: items)
  = if negb (is_empty (sorted_by info_name (surviving (snd item))))
    then (fst item, sorted_by info_name (surviving (snd item))) :: blocks_of items
    else blocks_of items.
Proof. reflexivity. Qed.

Lemma blocks_of_sorted (items : list (string * list app_info)) :
  StronglySorted category_lt items -> StronglySorted category_lt (blocks_of items).
Proof.
  induction 1 as [|item items Hitems IH Hitem]; [constructor|].
  rewrite blocks_of_cons.
  destruct (negb (is_empty (sorted_by info_name (surviving (snd item))))); [|done].
  constructor; [done|].
  apply Forall_forall. intros block Hblock.
  apply elem_of_blocks_of in Hblock as (apps & Hin & _ & _).
  rewrite Forall_forall in Hitem. exact (Hitem _ Hin).
Qed.

(** C7. The report is the header followed by the blocks; the blocks come
    in strictly increasing lexicographic order of category; inside a block
    the entries come in lexicographic order of name; no block is empty:
    each holds an entry that survived and was made from a record of that
    category, so a category without such an entry has neither header lines
    nor block. *)
Theorem report_is_sorted (lower : string -> string) (system_apps : gset string)
  (installed_apps : list (ApplicationRecord string)) :
  main lower system_apps installed_apps
  = report_header
    ++ concat (map render_block (report_blocks lower system_apps installed_apps))
  /\ StronglySorted category_lt (report_blocks lower system_apps installed_apps)
  /\ Forall (fun block => StronglySorted name_le (snd block))
       (report_blocks lower system_apps installed_apps)
  /\ Forall (fun block => snd block <> [])
       (report_blocks lower system_apps installed_apps)
  /\ Forall (fun block =>
               exists e, e ∈ snd block
                         /\ info_source e <> "Apple"
                         /\ made_from lower system_apps installed_apps (fst block) e)
       (report_blocks lower system_apps installed_apps).
Proof.
  split; [apply main_blocks|].
  split; [|split; [|split]].
  - apply blocks_of_sorted.
    apply (sorted_by_strict fst). apply categorize_NoDup.
  - apply Forall_forall. intros block Hblock.
    apply elem_of_blocks_of in Hblock as (apps & _ & -> & _).
    apply (sorted_by_sorted info_name).
  - apply Forall_forall. intros block Hblock.
    by apply elem_of_blocks_of in Hblock as (apps & _ & _ & Hne).
  - apply Forall_forall. intros block Hblock.
    pose proof Hblock as (apps & _ & _ & Hne)%elem_of_blocks_of.
    destruct (snd block) as [|e es] eqn:Hsnd; [done|].
    exists e. assert (He : e ∈ snd block) by (rewrite Hsnd; left).
    split; [left|]. by apply (reported_entry lower system_apps installed_apps block).
Qed.

Example report_two_categories :
  main ascii_lower {[ "Safari" ]}
    [ {| name := "Zed Notes"; path := "/Applications/Zed Notes.app"; version := "2";
         obtained_from := "mac_app_store"; last_modified := "Unknown" |};
      {| name := "iTerm"; path := "/Applications/iTerm.app"; version := "3.4";
         obtained_from := "identified_developer"; last_modified := "Unknown" |};
      {| name := "Safari"; path := "/Applications/Safari.app"; version := "17";
         obtained_from := "unknown"; last_modified := "Unknown" |};
      {| name := "Docker"; path := "/Applications/Docker.app"; version := "Unknown";
         obtained_from := "unknown"; last_modified := "Unknown" |} ]
  = [ "Analyzing installed applications...";
      newline +:+ "Third-Party Applications by Category:";
      "==================================================";
      newline +:+ "Development:";
      "-----------";
      "• Docker [Unknown]";
      "• iTerm (v3.4) [Verified Dev]";
      newline +:+ "Productivity:";
      "------------";
      "• Zed Notes (v2) [App Store]" ].
Proof. vm_compute. reflexivity. Qed.

(** C8. An entry whose version is "Unknown" is printed as
    [• <name> [<source>]], any other as [• <name> (v<version>) [<source>]];
    after the header the report holds, block by block, the two header lines
    of the category and these lines. *)
Theorem entry_line_format (lower : string -> string) (out : list string)
  (app : app_info) :
  (info_version app = "Unknown" ->
     print_app out app
     = out ++ [ "• " +:+ info_name app +:+ " [" +:+ info_source app +:+ "]" ])
  /\ (info_version app <> "Unknown" ->
        print_app out app
        = out ++ [ "• " +:+ info_name app +:+ " (v" +:+ info_version app +:+ ") ["
                     +:+ info_source app +:+ "]" ])
  /\ (forall system_apps installed_apps,
        main lower system_apps installed_apps
        = report_header
          ++ concat (map (fun block =>
                            fold_left print_app (snd block)
                              [ newline +:+ fst block +:+ ":";
                                times "-" (String.length (fst block)) ])
                       (report_blocks lower system_apps installed_apps))).
Proof.
  split; [|split].
  - intros Hv. unfold print_app. by rewrite Hv.
  - intros Hv. unfold print_app.
    by destruct (String.eqb_spec (info_version app) "Unknown").
  - intros system_apps installed_apps. rewrite main_blocks. f_equal. f_equal.
    apply map_ext. intros block. by rewrite fold_print_app.
Qed.

Lemma entry_line_format_witness :
  print_app [] {| info_name := "vUbuntu 22.04"; info_version := "Unknown";
                  info_source := "Unknown" |}
  = [ "• vUbuntu 22.04 [Unknown]" ]
  /\ print_app [] {| info_name := "Obsidian"; info_version := "1.2.0";
                     info_source := "Verified Dev" |}
     = [ "• Obsidian (v1.2.0) [Verified Dev]" ].
Proof.
  split.
  - exact (proj1 (entry_line_format ascii_lower []
                    {| info_name := "vUbuntu 22.04"; info_version := "Unknown";
                       info_source := "Unknown" |}) eq_refl).
  - apply (proj1 (proj2 (entry_line_format ascii_lower []
                           {| info_name := "Obsidian"; info_version := "1.2.0";
                              info_source := "Verified Dev" |}))).
    discriminate.
Defined.

(** ** What is left out of the report *)

(** C3. A name of the system-app set has no entry in any block of the
    report, whatever its category and whatever the filter says of its
    record; a record with such a name can be taken out of the inventory
    without changing what is printed. *)
Theorem system_apps_never_reported (lower : string -> string)
  (system_apps : gset string) (installed_apps : list (ApplicationRecord string))
  (app_name : string) :
  app_name ∈ system_apps ->
  main lower system_apps installed_apps
  = report_header
    ++ concat (map render_block (report_blocks lower system_apps installed_apps))
  /\ (forall block e,
        block ∈ report_blocks lower system_apps installed_apps ->
        e ∈ snd block -> info_name e <> app_name)
  /\ (forall before app after,
        name app = app_name ->
        main lower system_apps (before ++ app :: after)
        = main lower system_apps (before ++ after)).
Proof.
  intros Hsys. split; [apply main_blocks|]. split.
  - intros block e Hblock He Hname.
    destruct (reported_entry lower _ _ _ _ Hblock He)
      as (_ & app & _ & Hnot & _ & _ & ->).
    simpl in Hname. apply Hnot. by rewrite Hname.
  - intros before app after Hname. apply main_skip. left. by rewrite Hname.
Qed.

Lemma system_apps_never_reported_witness :
  main ascii_lower {[ "Obsidian" ]}
    ([] ++ {| name := "Obsidian"; path := "/Applications/Obsidian.app";
              version := "1.2.0"; obtained_from := "identified_developer";
              last_modified := "Unknown" |} :: [])
  = main ascii_lower {[ "Obsidian" ]} ([] ++ []).
Proof.
  refine (proj2 (proj2 (system_apps_never_reported ascii_lower {[ "Obsidian" ]} []
                          "Obsidian" _)) []
            {| name := "Obsidian"; path := "/Applications/Obsidian.app";
               version := "1.2.0"; obtained_from := "identified_developer";
               last_modified := "Unknown" |} [] eq_refl).
  apply (bool_decide_unpack _). vm_compute. exact I.
Defined.

Section SourceFacts.
Variable lower : string -> string.

Lemma should_include_app_source (app : ApplicationRecord string) :
  should_include_app lower app = true -> lower (obtained_from app) <> "apple".
Proof.
  unfold should_include_app.
  destruct (bool_decide (name app ∈ excluded_apps)); [discriminate|].
  destruct (String.eqb_spec (lower (obtained_from app)) "apple"); [discriminate|done].
Qed.

Lemma format_source_apple (source : string) :
  lower source = "apple" -> format_source lower source = "Apple".
Proof. intros H. unfold format_source. by rewrite H. Qed.

(** Only a source that lowers to "apple" is shown as "Apple". *)
Lemma format_source_Apple_inv (source : string) :
  lower "Apple" = "apple" ->
  format_source lower source = "Apple" -> lower source = "apple".
Proof.
  intros Hlow. unfold format_source, get_or, source_map. simpl.
  destruct (String.eqb_spec (lower source) "mac_app_store"); [discriminate|].
  destruct (String.eqb_spec (lower source) "identified_developer"); [discriminate|].
  destruct (String.eqb_spec (lower source) "unknown"); [discriminate|].
  destruct (String.eqb_spec (lower source) "apple"); [done|].
  by intros ->.
Qed.

Lemma surviving_all (apps : list app_info) :
  Forall (fun e => info_source e <> "Apple") apps -> surviving apps = apps.
Proof.
  induction 1 as [|e apps He _ IH]; [done|].
  unfold surviving in *. simpl.
  destruct (String.eqb_spec (info_source e) "Apple"); [done|].
  simpl. by rewrite IH.
Qed.

Lemma fold_print_category_unfiltered (items : list (string * list app_info))
  (out : list string) :
  Forall (fun item => surviving (snd item) = snd item) items ->
  fold_left print_category items out
  = fold_left (print_category_unfiltered) items out.
Proof.
  intros H. revert out.
  induction H as [|[category apps] items Hitem _ IH]; intros out; [done|].
  cbn [fold_left]. rewrite IH. f_equal.
  unfold print_category, print_category_unfiltered.
  fold (surviving apps). simpl in Hitem. rewrite Hitem.
  by destruct apps.
Qed.
End SourceFacts.

(** C4. A record whose source lowers to "apple" is refused by the filter,
    whatever its name and path; it can be taken out of the inventory
    without changing what is printed, and the entry it would give, which
    has the source "Apple", is in no block of any report. *)
Theorem apple_sourced_records_excluded (lower : string -> string)
  (app : ApplicationRecord string) :
  lower (obtained_from app) = "apple" ->
  should_include_app lower app = false
  /\ (forall system_apps before after,
        main lower system_apps (before ++ app :: after)
        = main lower system_apps (before ++ after))
  /\ (forall system_apps installed_apps block e,
        block ∈ report_blocks lower system_apps installed_apps ->
        e ∈ snd block -> e <> make_entry lower app).
Proof.
  intros Hsrc.
  assert (Hfalse : should_include_app lower app = false).
  { unfold should_include_app. rewrite Hsrc. simpl.
    by destruct (bool_decide (name app ∈ excluded_apps)). }
  split; [done|]. split.
  - intros system_apps before after. apply main_skip. by right.
  - intros system_apps installed_apps block e Hblock He ->.
    destruct (reported_entry lower _ _ _ _ Hblock He) as [Hnot _].
    apply Hnot. simpl. by apply format_source_apple.
Qed.

Lemma apple_sourced_records_excluded_witness :
  should_include_app ascii_lower
    {| name := "Final Cut Pro"; path := "/Applications/Final Cut Pro.app";
       version := "10.6"; obtained_from := "Apple"; last_modified := "Unknown" |}
  = false.
Proof.
  exact (proj1 (apple_sourced_records_excluded ascii_lower
                  {| name := "Final Cut Pro"; path := "/Applications/Final Cut Pro.app";
                     version := "10.6"; obtained_from := "Apple";
                     last_modified := "Unknown" |} eq_refl)).
Defined.

(** C10. The test [app["source"] != "Apple"] of the second loop changes
    nothing: a record that passes the filter is never shown with the source
    "Apple", and what [main] prints is what it prints with the test taken
    out.  [lower] is any function that maps "Apple" to "apple", as
    [str.lower] does. *)
Theorem render_time_apple_filter_is_noop (lower : string -> string) :
  lower "Apple" = "apple" ->
  (forall app, should_include_app lower app = true ->
               format_source lower (obtained_from app) <> "Apple")
  /\ (forall system_apps installed_apps,
        main lower system_apps installed_apps
        = main_unfiltered lower system_apps installed_apps).
Proof.
  intros Hlow.
  assert (Hsrc : forall app, should_include_app lower app = true ->
                             format_source lower (obtained_from app) <> "Apple").
  { intros app Hinc Happle. apply (should_include_app_source lower app Hinc).
    by apply format_source_Apple_inv. }
  split; [done|].
  intros system_apps installed_apps. unfold main, main_unfiltered.
  apply fold_print_category_unfiltered.
  apply Forall_forall. intros item Hitem. apply elem_of_sorted_by in Hitem.
  pose proof (categorize_ok lower system_apps installed_apps) as Hok.
  rewrite Forall_forall in Hok. destruct (Hok _ Hitem) as [_ Hall].
  apply surviving_all. eapply Forall_impl; [exact Hall|].
  intros e (app & _ & _ & Hinc & _ & ->). simpl. by apply Hsrc.
Qed.

Lemma render_time_apple_filter_is_noop_witness :
  main ascii_lower ∅
    [ {| name := "Obsidian"; path := "/Applications/Obsidian.app";
         version := "1.2.0"; obtained_from := "identified_developer";
         last_modified := "Unknown" |} ]
  = main_unfiltered ascii_lower ∅
      [ {| name := "Obsidian"; path := "/Applications/Obsidian.app";
           version := "1.2.0"; obtained_from := "identified_developer";
           last_modified := "Unknown" |} ].
Proof.
  exact (proj2 (render_time_apple_filter_is_noop ascii_lower eq_refl) ∅ _).
Defined.

(** * Further properties *)

(** ** Strings *)

#[local] Arguments String.append !_ _ / : simpl nomatch.

Lemma append_nil_r (s : string) : s +:+ "" = s.
Proof. induction s as [|c s IH]; simpl; [done|by f_equal]. Qed.

Lemma append_assoc (a b c : string) : (a +:+ b) +:+ c = a +:+ b +:+ c.
Proof. induction a as [|x a IH]; simpl; [done|by f_equal]. Qed.

Lemma prefix_starts (p s : string) : String.prefix p s = true <-> starts p s.
Proof.
  unfold starts. revert s. induction p as [|a p IH]; intros s.
  - destruct s; simpl; split; eauto.
  - destruct s as [|b s]; simpl.
    + split; [discriminate|]. intros [r Hr]. discriminate.
    + destruct (ascii_dec a b) as [->|Hne].
      * rewrite IH. split; intros [r Hr]; exists r; [by rewrite Hr|by injection Hr].
      * split; [discriminate|]. intros [r Hr]. injection Hr as ? ?. congruence.
Qed.

Lemma contains_occurs (sub s : string) : contains sub s = true <-> occurs_in sub s.
Proof.
  unfold occurs_in. induction s as [|c s IH]; cbn [contains].
  - rewrite orb_false_r, prefix_starts. unfold starts. split.
    + intros [r Hr]. by exists "", r.
    + intros (a & b & H). destruct a; simpl in H; [by exists b|discriminate].
  - rewrite orb_true_iff, prefix_starts, IH. unfold starts. split.
    + intros [[r Hr]|(a & b & H)]; [by exists "", r|].
      exists (String c a), b. simpl. by rewrite H.
    + intros (a & b & H). destruct a as [|c' a]; simpl in H; [left; by exists b|].
      right. injection H as -> ->. by exists a, b.
Qed.

Lemma contains_false (sub s : string) : contains sub s = false <-> ~ occurs_in sub s.
Proof. rewrite <- contains_occurs. by destruct (contains sub s). Qed.

Lemma startswith_starts (s p : string) : startswith s p = true <-> starts p s.
Proof. apply prefix_starts. Qed.

(** ** More on the classifier *)

(** X1. Outside the override table the category depends on the lowered
    name only: two names without override that lower to the same text get
    the same category, whatever their paths. *)
Theorem classifier_case_insensitive (lower : string -> string)
  (n1 n2 p1 p2 : string) :
  dict_get n1 special_cases = None ->
  dict_get n2 special_cases = None ->
  lower n1 = lower n2 ->
  get_app_category lower n1 p1 = get_app_category lower n2 p2.
Proof.
  intros H1 H2 Hlow. unfold get_app_category. by rewrite H1, H2, Hlow.
Qed.

Lemma classifier_case_insensitive_witness :
  get_app_category ascii_lower "XCODE beta" "/a" = get_app_category ascii_lower "xcode Beta" "/b".
Proof.
  exact (classifier_case_insensitive ascii_lower "XCODE beta" "xcode Beta" "/a" "/b"
           eq_refl eq_refl eq_refl).
Defined.

(** X2. "Other" means that nothing matched: the name has no override, the
    lowered name does not hold "ubuntu", and no lowered keyword of any row
    of the table occurs in it; and only then. *)
Theorem classifier_other_iff (lower : string -> string) (app_name path : string) :
  get_app_category lower app_name path = "Other"
  <-> dict_get app_name special_cases = None
      /\ ~ occurs_in "ubuntu" (lower app_name)
      /\ (forall row keyword,
            row ∈ categories -> keyword ∈ snd row ->
            ~ occurs_in (lower keyword) (lower app_name)).
Proof.
  assert (Hno : forall nl,
             Forall (no_keyword lower nl) categories
             <-> forall row keyword, row ∈ categories -> keyword ∈ snd row ->
                                     ~ occurs_in (lower keyword) nl).
  { intros nl. rewrite Forall_forall. unfold no_keyword, any_keyword. split.
    - intros H row keyword Hrow Hkw Hocc. specialize (H row Hrow).
      apply contains_occurs in Hocc.
      assert (existsb (fun k => contains (lower k) nl) (snd row) = true); [|congruence].
      apply existsb_exists. exists keyword. split; [by apply list_elem_of_In|done].
    - intros H row Hrow.
      destruct (existsb (fun k => contains (lower k) nl) (snd row)) eqn:Hex; [|done].
      apply existsb_exists in Hex as (keyword & Hin & Hc).
      destruct (H row keyword Hrow); [by apply list_elem_of_In|by apply contains_occurs]. }
  rewrite <- contains_false, <- Hno. unfold get_app_category. split.
  - destruct (dict_get app_name special_cases) as [c|] eqn:Hsp.
    { intros ->. apply dict_get_elem in Hsp.
      assert (Hall : Forall (fun item => snd item <> "Other") special_cases).
      { unfold special_cases. repeat constructor; discriminate. }
      rewrite Forall_forall in Hall. by destruct (Hall _ Hsp). }
    destruct (contains "ubuntu" (lower app_name)); [discriminate|]. cbv zeta.
    destruct (scan lower (lower app_name) categories) as [c|] eqn:Hscan.
    + intros ->. apply scan_Some in Hscan as (i & keywords & Hi & _ & _).
      assert (Hall : Forall (fun item => fst item <> "Other") categories).
      { unfold categories. repeat constructor; discriminate. }
      rewrite Forall_lookup in Hall. by destruct (Hall _ _ Hi).
    + intros _. split; [done|]. split; [done|]. by apply scan_None.
  - intros (-> & -> & Hall). cbv zeta.
    destruct (scan lower (lower app_name) categories) as [c|] eqn:Hscan; [|done].
    apply scan_Some in Hscan as (i & keywords & Hi & Hk & _).
    rewrite Forall_lookup in Hall. specialize (Hall _ _ Hi).
    unfold no_keyword in Hall. simpl in Hall. congruence.
Qed.

(** ** More on the inclusion filter *)

(** X3. The filter accepts a record exactly when its name is not one of
    the five excluded names, its source does not lower to "apple", and its
    path starts with none of the three system prefixes. *)
Theorem should_include_app_iff (lower : string -> string)
  (app : ApplicationRecord string) :
  should_include_app lower app = true
  <-> (name app ∉ excluded_apps)
      /\ lower (obtained_from app) <> "apple"
      /\ (forall prefix, prefix ∈ system_prefixes -> ~ starts prefix (path app)).
Proof.
  unfold should_include_app.
  destruct (decide (name app ∈ excluded_apps)) as [Hex|Hex].
  { rewrite bool_decide_true by done. split; [discriminate|]. by intros [? _]. }
  rewrite bool_decide_false by done.
  destruct (String.eqb_spec (lower (obtained_from app)) "apple") as [Heq|Hne].
  { split; [discriminate|]. by intros (_ & ? & _). }
  destruct (existsb (fun prefix => startswith (path app) prefix) system_prefixes)
    eqn:Hpre.
  - split; [discriminate|]. intros (_ & _ & Hall).
    apply existsb_exists in Hpre as (prefix & Hin & Hst).
    destruct (Hall prefix); [by apply list_elem_of_In|by apply startswith_starts].
  - split; [|done]. intros _. split; [done|]. split; [done|].
    intros prefix Hin Hst.
    assert (existsb (fun prefix => startswith (path app) prefix) system_prefixes = true);
      [|congruence].
    apply existsb_exists. exists prefix.
    split; [by apply list_elem_of_In|by apply startswith_starts].
Qed.

(** ** More on the system-app enumerator *)

Lemma rev_app_append (s acc : string) : String.rev_app s acc = String.rev s +:+ acc.
Proof.
  unfold String.rev. revert acc. induction s as [|c s IH]; intros acc; simpl; [done|].
  rewrite (IH (String c acc)), (IH (String c "")). by rewrite append_assoc.
Qed.

Lemma rev_append (a b : string) : String.rev (a +:+ b) = String.rev b +:+ String.rev a.
Proof.
  induction a as [|c a IH]; simpl.
  - by rewrite append_nil_r.
  - unfold String.rev in *. simpl.
    rewrite (rev_app_append (a +:+ b)), (rev_app_append a).
    unfold String.rev. by rewrite IH, append_assoc.
Qed.

Lemma rev_involutive (s : string) : String.rev (String.rev s) = s.
Proof.
  induction s as [|c s IH]; [done|].
  change (String c s) with (String c "" +:+ s) at 1.
  by rewrite rev_append, rev_append, IH.
Qed.

Lemma endswith_ends (s p : string) : endswith s p = true <-> ends p s.
Proof.
  unfold endswith, ends. rewrite prefix_starts. unfold starts. split.
  - intros [r Hr]. exists (String.rev r).
    by rewrite <- (rev_involutive s), Hr, rev_append, rev_involutive.
  - intros [stem ->]. exists (String.rev stem). by rewrite rev_append.
Qed.

(** ".app" cannot start inside a text and run over into a following ".app". *)
Lemma starts_app_no_border (s : string) :
  s <> "" -> starts ".app" (s +:+ ".app") -> starts ".app" s.
Proof.
  intros Hne [r Hr].
  destruct s as [|c1 [|c2 [|c3 [|c4 s]]]]; simpl in Hr; try done;
    try (injection Hr as; discriminate).
  injection Hr as -> -> -> -> _. by exists s.
Qed.

Lemma replace_from_clean (stem : string) :
  ~ occurs_in ".app" stem -> replace_from 0 ".app" "" (stem +:+ ".app") = stem.
Proof.
  induction stem as [|c stem IH]; intros Hclean; [reflexivity|].
  change (String c stem +:+ ".app") with (String c (stem +:+ ".app")).
  cbn [replace_from].
  destruct (String.prefix ".app" (String c (stem +:+ ".app"))) eqn:Hpre.
  - apply prefix_starts in Hpre.
    apply (starts_app_no_border (String c stem)) in Hpre as [r Hr]; [|done].
    destruct Hclean. by exists "", r.
  - f_equal. apply IH. intros (a & b & Hab). apply Hclean.
    exists (String c a), b. simpl. by rewrite Hab.
Qed.

(** X4. A bundle named [stem.app] whose stem holds no ".app" is recognised
    as a bundle and gets the display name [stem]. *)
Theorem bundle_name_of_clean_stem (stem : string) (entries : list string) :
  ~ occurs_in ".app" stem ->
  endswith (stem +:+ ".app") ".app" = true
  /\ replace (stem +:+ ".app") ".app" "" = stem
  /\ ((stem +:+ ".app") ∈ entries -> stem ∈ bundle_names entries).
Proof.
  intros Hclean.
  assert (Hend : endswith (stem +:+ ".app") ".app" = true).
  { apply endswith_ends. by exists stem. }
  assert (Hrep : replace (stem +:+ ".app") ".app" "" = stem).
  { by apply replace_from_clean. }
  split; [done|]. split; [done|].
  intros Hin. apply elem_of_bundle_names. by exists (stem +:+ ".app").
Qed.

Lemma bundle_name_of_clean_stem_witness :
  "App Store" ∈ bundle_names [ "Safari.app"; "App Store.app" ].
Proof.
  refine (proj2 (proj2 (bundle_name_of_clean_stem "App Store"
                          [ "Safari.app"; "App Store.app" ] _)) _).
  - apply contains_false. reflexivity.
  - apply (bool_decide_unpack _). vm_compute. exact I.
Defined.

Lemma scan_paths_elem (fs : filesystem) (paths : list string) (acc system_apps : gset string)
  (n : string) :
  scan_paths fs paths acc = Ok system_apps ->
  n ∈ system_apps
  <-> n ∈ acc
      \/ exists path entries, path ∈ paths /\ fs path = Some (Directory entries)
                              /\ n ∈ bundle_names entries.
Proof.
  revert acc. induction paths as [|path paths IH]; intros acc; simpl.
  - intros [= ->]. split; [by left|]. intros [?|(p & es & ?%elem_of_nil & _)]; done.
  - destruct (fs path) as [[entries|e]|] eqn:Hpath; [| discriminate |].
    + intros H. rewrite (IH _ H), elem_of_union, elem_of_list_to_set. split.
      * intros [[?|?]|(q & es & Hq & Hfs & Hn)]; [by left| |].
        -- right. exists path, entries. by split; [left|].
        -- right. exists q, es. by split; [right|].
      * intros [?|(q & es & Hq & Hfs & Hn)]; [by left; left|].
        apply elem_of_cons in Hq as [->|Hq].
        -- left. right. congruence.
        -- right. by exists q, es.
    + intros H. rewrite (IH _ H). split.
      * intros [?|(q & es & Hq & Hfs & Hn)]; [by left|].
        right. exists q, es. by split; [right|].
      * intros [?|(q & es & Hq & Hfs & Hn)]; [by left|].
        apply elem_of_cons in Hq as [->|Hq]; [congruence|].
        right. by exists q, es.
Qed.

(** X5. The enumerator raises [e] exactly when [os.listdir] raises [e] on
    the first of its two paths, or the first path is missing or a directory
    and [os.listdir] raises [e] on the second: the first failure decides,
    nothing catches it, and the names already taken from the first
    directory are lost with it. *)
Theorem get_system_apps_raises_iff (fs : filesystem) (e : string) :
  get_system_apps fs = Raise e
  <-> fs "/System/Applications" = Some (Unlistable e)
      \/ ((fs "/System/Applications" = None
           \/ exists entries, fs "/System/Applications" = Some (Directory entries))
          /\ fs "/System/Applications/Utilities" = Some (Unlistable e)).
Proof.
  unfold get_system_apps, system_paths. simpl.
  destruct (fs "/System/Applications") as [[entries|e1]|];
    destruct (fs "/System/Applications/Utilities") as [[entries2|e2]|]; split;
    try discriminate; try (intros [= ->]); eauto;
    intros [H|[[H|[es H]] H2]]; congruence.
Qed.

(** X6. When the enumerator returns, a name is in its set exactly when some
    entry of one of the two directories that exist ends with ".app" and
    gives that name once every ".app" is removed from it. *)
Theorem get_system_apps_elem (fs : filesystem) (system_apps : gset string) (n : string) :
  get_system_apps fs = Ok system_apps ->
  n ∈ system_apps
  <-> exists path entries f,
        path ∈ system_paths
        /\ fs path = Some (Directory entries)
        /\ f ∈ entries
        /\ ends ".app" f
        /\ n = replace f ".app" "".
Proof.
  intros H. rewrite (scan_paths_elem _ _ _ _ n H). split.
  - intros [?%elem_of_empty|(path & entries & Hp & Hfs & Hn)]; [done|].
    apply elem_of_bundle_names in Hn as (f & Hf & He & ->).
    exists path, entries, f. by rewrite <- endswith_ends.
  - intros (path & entries & f & Hp & Hfs & Hf & He & ->). right.
    exists path, entries. split; [done|]. split; [done|].
    apply elem_of_bundle_names. exists f. by rewrite endswith_ends.
Qed.

Lemma get_system_apps_elem_witness :
  "Webs" ∈ ({[ "Safari"; "Webs" ]} : gset string)
  <-> exists path entries f,
        path ∈ system_paths
        /\ fs_dotted_bundle path = Some (Directory entries)
        /\ f ∈ entries
        /\ ends ".app" f
        /\ "Webs" = replace f ".app" "".
Proof.
  apply (get_system_apps_elem fs_dotted_bundle {[ "Safari"; "Webs" ]} "Webs").
  reflexivity.
Defined.

(** X7. From the file system to the report: an application bundled as
    [stem.app] in a system directory, the stem holding no ".app", is in the
    enumerator's set, and no report made with that set has an entry of that
    name. *)
Theorem bundled_app_never_reported (fs : filesystem) (system_apps : gset string)
  (path stem : string) (entries : list string) :
  get_system_apps fs = Ok system_apps ->
  path ∈ system_paths ->
  fs path = Some (Directory entries) ->
  (stem +:+ ".app") ∈ entries ->
  ~ occurs_in ".app" stem ->
  stem ∈ system_apps
  /\ (forall lower installed_apps block e,
        block ∈ report_blocks lower system_apps installed_apps ->
        e ∈ snd block -> info_name e <> stem).
Proof.
  intros Hget Hpath Hfs Hin Hclean.
  assert (Hstem : stem ∈ system_apps).
  { apply (scan_paths_elem _ _ _ _ stem Hget). right.
    exists path, entries. split; [done|]. split; [done|].
    apply elem_of_bundle_names. exists (stem +:+ ".app"). split; [done|]. split.
    - apply endswith_ends. by exists stem.
    - symmetry. by apply replace_from_clean. }
  split; [done|].
  intros lower installed_apps block e Hblock He Hname.
  destruct (reported_entry lower _ _ _ _ Hblock He)
    as (_ & app & _ & Hnot & _ & _ & ->).
  simpl in Hname. apply Hnot. by rewrite Hname.
Qed.

Lemma bundled_app_never_reported_witness :
  "Safari" ∈ ({[ "Safari"; "Webs" ]} : gset string).
Proof.
  refine (proj1 (bundled_app_never_reported fs_dotted_bundle {[ "Safari"; "Webs" ]}
                   "/System/Applications" "Safari"
                   [ "Safari.app"; "Web.apps.app"; "Utilities" ] _ _ _ _ _)).
  - reflexivity.
  - apply (bool_decide_unpack _). vm_compute. exact I.
  - reflexivity.
  - apply (bool_decide_unpack _). vm_compute. exact I.
  - apply contains_false. reflexivity.
Defined.

(** ** More on the inventory fetcher *)

Lemma collect_apps_dicts (ds : list (list (string * json)))
  (apps_info : list (ApplicationRecord json)) :
  collect_apps (map JDict ds) apps_info = Ok (apps_info ++ map record_of_dict ds).
Proof.
  revert apps_info. induction ds as [|d ds IH]; intros apps_info; simpl.
  - by rewrite app_nil_r.
  - rewrite IH. by rewrite <- app_assoc.
Qed.

(** X8. When the output parses to an object whose inventory key is absent
    or holds a list of objects, the fetcher prints nothing and returns one
    record per object, in the order of the list, whatever the exit status;
    each field of a record is the value under its key, or "Unknown" when the
    key is absent. *)
Theorem fetcher_returns_records_in_order (returncode : Z)
  (d : list (string * json)) (ds : list (list (string * json))) :
  get_or d "SPApplicationsDataType" (JList []) = JList (map JDict ds) ->
  get_installed_apps (Completed returncode (Ok (JDict d)))
  = ([], map record_of_dict ds)
  /\ (forall i di key field,
        ds !! i = Some di ->
        (key, field) ∈ [ ("_name", @name json); ("path", @path json);
                         ("version", @version json);
                         ("obtained_from", @obtained_from json);
                         ("lastModified", @last_modified json) ] ->
        exists r, snd (get_installed_apps (Completed returncode (Ok (JDict d)))) !! i
                  = Some r
                  /\ field r = match dict_get key di with
                               | Some v => v
                               | None => JStr "Unknown"
                               end).
Proof.
  intros Hkey.
  assert (Hres : get_installed_apps (Completed returncode (Ok (JDict d)))
                 = ([], map record_of_dict ds)).
  { unfold get_installed_apps, fetch. simpl. rewrite Hkey. simpl.
    by rewrite collect_apps_dicts. }
  split; [done|].
  intros i di key field Hi Hfield. rewrite Hres. simpl.
  exists (record_of_dict di). split; [by rewrite list_lookup_fmap, Hi|].
  repeat (apply elem_of_cons in Hfield as [[= -> ->]|Hfield]; [reflexivity|]).
  by apply elem_of_nil in Hfield.
Qed.

Lemma fetcher_returns_records_in_order_witness :
  get_installed_apps
    (Completed 0
       (Ok (JDict [ ("SPApplicationsDataType",
                     JList [ JDict [ ("_name", JStr "Obsidian") ];
                             JDict [ ("_name", JStr "Tabby");
                                     ("version", JInt 3) ] ]) ])))
  = ([], [ {| name := JStr "Obsidian"; path := JStr "Unknown";
              version := JStr "Unknown"; obtained_from := JStr "Unknown";
              last_modified := JStr "Unknown" |};
           {| name := JStr "Tabby"; path := JStr "Unknown";
              version := JInt 3; obtained_from := JStr "Unknown";
              last_modified := JStr "Unknown" |} ]).
Proof.
  exact (proj1 (fetcher_returns_records_in_order 0
                  [ ("SPApplicationsDataType",
                     JList [ JDict [ ("_name", JStr "Obsidian") ];
                             JDict [ ("_name", JStr "Tabby");
                                     ("version", JInt 3) ] ]) ]
                  [ [ ("_name", JStr "Obsidian") ];
                    [ ("_name", JStr "Tabby"); ("version", JInt 3) ] ]
                  eq_refl)).
Defined.

(** ** More on the report *)

Lemma dict_get_dict_append {V : Type} (c k : string) (x : V)
  (d : list (string * list V)) :
  dict_get c (dict_append k x d)
  = if String.eqb c k then Some (default [] (dict_get c d) ++ [x]) else dict_get c d.
Proof.
  induction d as [|[k' l] d IH]; simpl.
  - by destruct (String.eqb c k).
  - destruct (String.eqb_spec k k') as [->|Hk]; simpl.
    + by destruct (String.eqb_spec c k').
    + rewrite IH. destruct (String.eqb_spec c k') as [->|Hc]; [|done].
      by destruct (String.eqb_spec k' k) as [->|_].
Qed.

Lemma dict_get_elem_iff {V : Type} (c : string) (v : V) (d : list (string * V)) :
  NoDup (map fst d) -> (c, v) ∈ d <-> dict_get c d = Some v.
Proof.
  intros Hnd. split; [|apply dict_get_elem].
  induction d as [|[k w] d IH]; simpl; [by intros ?%elem_of_nil|].
  simpl in Hnd. apply NoDup_cons in Hnd as [Hnotin Hnd].
  intros [[= -> ->]|Hin]%elem_of_cons.
  - by rewrite String.eqb_refl.
  - destruct (String.eqb_spec c k) as [->|_]; [|by apply IH].
    destruct Hnotin. apply list_elem_of_fmap. by exists (k, v).
Qed.

Section GroupingFacts.
Variable lower : string -> string.
Variable system_apps : gset string.

Lemma categorize_fold_get (category : string)
  (apps : list (ApplicationRecord string)) (d : list (string * list app_info)) :
  dict_get category (fold_left (categorize_app lower system_apps) apps d)
  = match dict_get category d, entries_of_category lower system_apps category apps with
    | None, [] => None
    | o, g => Some (default [] o ++ g)
    end.
Proof.
  revert d. induction apps as [|app apps IH]; intros d.
  - simpl. destruct (dict_get category d); simpl; [by rewrite app_nil_r|done].
  - cbn [fold_left]. rewrite IH. unfold categorize_app, entries_of_category.
    cbn [List.filter]. fold (kept lower system_apps app).
    destruct (kept lower system_apps app); cbn [andb]; [|done].
    rewrite dict_get_dict_append.
    destruct (String.eqb_spec (get_app_category lower (name app) (path app)) category)
      as [<-|Hne].
    + rewrite String.eqb_refl. cbn [map]. fold (make_entry lower app).
      destruct (dict_get _ d); simpl; [by rewrite <- app_assoc|done].
    + destruct (String.eqb_spec category
                  (get_app_category lower (name app) (path app))); [congruence|done].
Qed.

Lemma flat_dict_append (k : string) (x : app_info) (d : list (string * list app_info)) :
  concat (map snd (dict_append k x d)) ≡ₚ x :: concat (map snd d).
Proof.
  induction d as [|[k' l] d IH]; simpl; [done|].
  destruct (String.eqb k k'); simpl.
  - rewrite <- app_assoc. simpl. by rewrite <- Permutation_middle.
  - rewrite IH. by rewrite <- Permutation_middle.
Qed.

Lemma flat_categorize_fold (apps : list (ApplicationRecord string))
  (d : list (string * list app_info)) :
  concat (map snd (fold_left (categorize_app lower system_apps) apps d))
  ≡ₚ concat (map snd d)
     ++ map (make_entry lower) (List.filter (kept lower system_apps) apps).
Proof.
  revert d. induction apps as [|app apps IH]; intros d; simpl.
  - by rewrite app_nil_r.
  - rewrite IH. unfold categorize_app. fold (kept lower system_apps app).
    destruct (kept lower system_apps app); [|done].
    fold (make_entry lower app). rewrite flat_dict_append. simpl.
    by rewrite <- Permutation_middle.
Qed.
End GroupingFacts.

Lemma surviving_concat (ls : list (list app_info)) :
  surviving (concat ls) = concat (map surviving ls).
Proof.
  unfold surviving. induction ls as [|l ls IH]; simpl; [done|].
  by rewrite List.filter_app, IH.
Qed.

Lemma surviving_perm (l1 l2 : list app_info) : l1 ≡ₚ l2 -> surviving l1 ≡ₚ surviving l2.
Proof.
  unfold surviving. induction 1 as [|x l1 l2 _ IH|x y l|l1 l2 l3 _ IH1 _ IH2]; simpl.
  - done.
  - destruct (negb _); [by constructor|done].
  - destruct (negb _), (negb _); try done. apply perm_swap.
  - by etrans.
Qed.

Lemma concat_map_perm {A B : Type} (f : A -> list B) (l1 l2 : list A) :
  l1 ≡ₚ l2 -> concat (map f l1) ≡ₚ concat (map f l2).
Proof.
  induction 1 as [|x l1 l2 _ IH|x y l|l1 l2 l3 _ IH1 _ IH2]; simpl.
  - done.
  - by rewrite IH.
  - rewrite !app_assoc. f_equiv. apply Permutation_app_comm.
  - by etrans.
Qed.

Lemma flat_blocks_of (items : list (string * list app_info)) :
  concat (map snd (blocks_of items)) ≡ₚ concat (map (fun item => surviving (snd item)) items).
Proof.
  induction items as [|item items IH]; [done|].
  rewrite blocks_of_cons. cbn [map concat].
  destruct (sorted_by info_name (surviving (snd item))) as [|e es] eqn:Hs.
  - simpl. rewrite IH.
    pose proof (sorted_by_perm info_name (surviving (snd item))) as Hp.
    rewrite Hs in Hp. apply Permutation_nil_l in Hp. by rewrite <- Hp.
  - cbn [is_empty negb map concat snd]. rewrite IH, <- Hs.
    by rewrite sorted_by_perm.
Qed.

Lemma categorize_lookup (lower : string -> string)
  (system_apps : gset string) (installed_apps : list (ApplicationRecord string))
  (category : string) :
  dict_get category (categorize lower system_apps installed_apps)
  = if is_empty (entries_of_category lower system_apps category installed_apps)
    then None
    else Some (entries_of_category lower system_apps category installed_apps).
Proof.
  unfold categorize. rewrite categorize_fold_get. simpl.
  by destruct (entries_of_category lower system_apps category installed_apps).
Qed.

(** X9. Grouping: after the first loop of [main], the list found under a
    category holds the entries of the kept records of that category, in the
    order of the inventory; a category without kept record is not a key,
    and no category is a key twice. *)
Theorem categorize_groups_by_category (lower : string -> string)
  (system_apps : gset string) (installed_apps : list (ApplicationRecord string))
  (category : string) :
  dict_get category (categorize lower system_apps installed_apps)
  = (if is_empty (entries_of_category lower system_apps category installed_apps)
     then None
     else Some (entries_of_category lower system_apps category installed_apps))
  /\ NoDup (map fst (categorize lower system_apps installed_apps)).
Proof. split; [apply categorize_lookup|apply categorize_NoDup]. Qed.

Lemma report_block_iff (lower : string -> string) (system_apps : gset string)
  (installed_apps : list (ApplicationRecord string)) (block : string * list app_info) :
  block ∈ report_blocks lower system_apps installed_apps
  <-> snd block
      = sorted_by info_name
          (surviving (entries_of_category lower system_apps (fst block) installed_apps))
      /\ snd block <> [].
Proof.
  unfold report_blocks. rewrite elem_of_blocks_of.
  pose proof (categorize_lookup lower system_apps installed_apps (fst block))
    as Hget.
  split.
  - intros (apps & Hin & Hsnd & Hne). split; [|done].
    apply elem_of_sorted_by, dict_get_elem_iff in Hin; [|apply categorize_NoDup].
    rewrite Hget in Hin.
    destruct (entries_of_category lower system_apps (fst block) installed_apps);
      [discriminate|]. injection Hin as <-. done.
  - intros [Hsnd Hne].
    exists (entries_of_category lower system_apps (fst block) installed_apps).
    split; [|done].
    apply elem_of_sorted_by, dict_get_elem_iff; [apply categorize_NoDup|].
    rewrite Hget.
    destruct (entries_of_category lower system_apps (fst block) installed_apps);
      [|done].
    by destruct Hne.
Qed.

(** X10. A pair of a category and a list is a block of the report exactly
    when the list is not empty and is the sorted list of the entries of the
    kept records of that category whose shown source is not "Apple". *)
Theorem report_blocks_characterised (lower : string -> string)
  (system_apps : gset string) (installed_apps : list (ApplicationRecord string))
  (category : string) (entries : list app_info) :
  (category, entries) ∈ report_blocks lower system_apps installed_apps
  <-> entries
      = sorted_by info_name
          (surviving (entries_of_category lower system_apps category installed_apps))
      /\ entries <> [].
Proof. apply (report_block_iff lower system_apps installed_apps (category, entries)). Qed.

Lemma report_entries_perm (lower : string -> string)
  (system_apps : gset string) (installed_apps : list (ApplicationRecord string)) :
  concat (map snd (report_blocks lower system_apps installed_apps))
  ≡ₚ surviving (map (make_entry lower)
                  (List.filter (kept lower system_apps) installed_apps)).
Proof.
  unfold report_blocks. rewrite flat_blocks_of.
  rewrite (concat_map_perm _ _ _ (sorted_by_perm fst _)).
  rewrite <- (map_map snd surviving), <- surviving_concat.
  apply surviving_perm. unfold categorize. by rewrite flat_categorize_fold.
Qed.

(** X11. Nothing is lost and nothing is merged: the entries of all blocks
    together are, up to order, the entries of the kept records whose shown
    source is not "Apple", a record that occurs twice giving two entries;
    so the report has three header lines, two lines per block and one line
    per such record. *)
Theorem report_entries_conserved (lower : string -> string)
  (system_apps : gset string) (installed_apps : list (ApplicationRecord string)) :
  concat (map snd (report_blocks lower system_apps installed_apps))
  ≡ₚ surviving (map (make_entry lower)
                  (List.filter (kept lower system_apps) installed_apps))
  /\ length (main lower system_apps installed_apps)
     = 3 + 2 * length (report_blocks lower system_apps installed_apps)
       + length (surviving (map (make_entry lower)
                              (List.filter (kept lower system_apps) installed_apps))).
Proof.
  split; [apply report_entries_perm|].
  rewrite main_blocks, length_app, <- (report_entries_perm lower system_apps installed_apps).
  simpl. f_equal. f_equal. f_equal.
  induction (report_blocks lower system_apps installed_apps) as [|block blocks IH];
    [done|].
  cbn [map concat]. rewrite !length_app, IH. unfold render_block.
  rewrite length_app, length_map. simpl. lia.
Qed.

Lemma render_block_not_nil (block : string * list app_info) : render_block block <> [].
Proof. discriminate. Qed.

Lemma report_blocks_not_nil (lower : string -> string) (system_apps : gset string)
  (installed_apps : list (ApplicationRecord string)) :
  Forall (fun block => snd block <> []) (report_blocks lower system_apps installed_apps).
Proof.
  apply Forall_forall. intros block Hblock.
  by apply report_block_iff in Hblock as [_ Hne].
Qed.

(** X12. Only the header is printed exactly when no kept record has a shown
    source other than "Apple"; so it is for an empty inventory, which is
    what a failed fetch gives. *)
Theorem report_header_only_iff (lower : string -> string) (system_apps : gset string)
  (installed_apps : list (ApplicationRecord string)) :
  main lower system_apps installed_apps = report_header
  <-> surviving (map (make_entry lower)
                   (List.filter (kept lower system_apps) installed_apps)) = [].
Proof.
  rewrite main_blocks.
  pose proof (report_entries_perm lower system_apps installed_apps) as Hperm.
  pose proof (report_blocks_not_nil lower system_apps installed_apps) as Hne.
  destruct (report_blocks lower system_apps installed_apps) as [|block blocks].
  - cbn [map concat] in *. rewrite app_nil_r. split; [intros _|done].
    by apply Permutation_nil_l in Hperm.
  - split.
    + intros H. rewrite <- (app_nil_r report_header) in H at 2.
      apply app_inv_head in H. discriminate H.
    + intros H. rewrite H in Hperm. apply Permutation_nil_r in Hperm.
      cbn [map concat] in Hperm. apply app_eq_nil in Hperm as [Hnil _].
      apply Forall_cons in Hne as [Hb _]. by destruct Hb.
Qed.

(** ** Stability and independence of the order of the inventory *)

Lemma ltb_irrefl (x : string) : String.ltb x x = false.
Proof.
  unfold String.ltb. assert (String.compare x x = Eq) as ->; [|done].
  induction x as [|c x IH]; simpl; [done|].
  unfold Ascii.compare. by rewrite N.compare_refl.
Qed.

Section StabilityFacts.
Context {A : Type} (key : A -> string).

Lemma insert_by_stable (k : string) (x : A) (l : list A) :
  List.filter (fun y => String.eqb (key y) k) (insert_by key x l)
  = List.filter (fun y => String.eqb (key y) k) (x :: l).
Proof.
  induction l as [|y l IH]; [done|]. cbn [insert_by].
  destruct (String.ltb (key y) (key x)) eqn:Hlt; [|done].
  cbn [List.filter] in *. rewrite IH.
  destruct (String.eqb_spec (key y) k) as [Hy|Hy]; [|done].
  destruct (String.eqb_spec (key x) k) as [Hx|Hx]; [|done].
  rewrite Hx, Hy, ltb_irrefl in Hlt. discriminate.
Qed.

Lemma sorted_by_stable (k : string) (l : list A) :
  List.filter (fun y => String.eqb (key y) k) (sorted_by key l)
  = List.filter (fun y => String.eqb (key y) k) l.
Proof.
  induction l as [|x l IH]; [done|]. cbn [sorted_by foldr].
  fold (sorted_by key l). rewrite insert_by_stable. cbn [List.filter].
  by rewrite IH.
Qed.
End StabilityFacts.

(** X13. The sort of a block is stable: the entries of a block that bear
    the same name stand in the order of their records in the inventory. *)
Theorem same_name_entries_keep_inventory_order (lower : string -> string)
  (system_apps : gset string) (installed_apps : list (ApplicationRecord string))
  (block : string * list app_info) (n : string) :
  block ∈ report_blocks lower system_apps installed_apps ->
  List.filter (fun e => String.eqb (info_name e) n) (snd block)
  = List.filter (fun e => String.eqb (info_name e) n)
      (surviving (entries_of_category lower system_apps (fst block) installed_apps)).
Proof.
  intros [Hsnd _]%report_block_iff. rewrite Hsnd. apply sorted_by_stable.
Qed.

Lemma filter_perm {A : Type} (f : A -> bool) (l1 l2 : list A) :
  l1 ≡ₚ l2 -> List.filter f l1 ≡ₚ List.filter f l2.
Proof.
  induction 1 as [|x l1 l2 _ IH|x y l|l1 l2 l3 _ IH1 _ IH2]; simpl.
  - done.
  - destruct (f x); [by constructor|done].
  - destruct (f x), (f y); try done. apply perm_swap.
  - by etrans.
Qed.

Lemma strictly_sorted_NoDup (blocks : list (string * list app_info)) :
  StronglySorted category_lt blocks -> NoDup blocks.
Proof.
  induction 1 as [|b blocks _ IH Hb]; [constructor|].
  apply NoDup_cons. split; [|done].
  intros Hin. rewrite Forall_forall in Hb. by destruct (Hb _ Hin) as [_ ?].
Qed.

Lemma report_blocks_sorted (lower : string -> string) (system_apps : gset string)
  (installed_apps : list (ApplicationRecord string)) :
  StronglySorted category_lt (report_blocks lower system_apps installed_apps).
Proof.
  apply blocks_of_sorted, (sorted_by_strict fst), categorize_NoDup.
Qed.

(** X14. The report does not depend on the order of the inventory, as long
    as records that share a name give the same entry (the same version and
    shown source): a reordered inventory prints the same texts. *)
Theorem report_independent_of_inventory_order (lower : string -> string)
  (system_apps : gset string) (apps1 apps2 : list (ApplicationRecord string)) :
  apps1 ≡ₚ apps2 ->
  (forall a b, a ∈ apps1 -> b ∈ apps1 -> name a = name b ->
               make_entry lower a = make_entry lower b) ->
  main lower system_apps apps1 = main lower system_apps apps2.
Proof.
  intros Hperm Hsame.
  assert (Hgroup : forall c,
             sorted_by info_name (surviving (entries_of_category lower system_apps c apps1))
             = sorted_by info_name
                 (surviving (entries_of_category lower system_apps c apps2))).
  { intros c.
    assert (Hfrom : forall apps e,
               e ∈ sorted_by info_name
                     (surviving (entries_of_category lower system_apps c apps)) ->
               exists a, a ∈ apps /\ e = make_entry lower a).
    { intros apps e He. apply elem_of_sorted_by in He.
      unfold surviving in He. apply list_elem_of_In, filter_In in He as [He _].
      unfold entries_of_category in He. apply in_map_iff in He as (a & <- & Ha).
      apply filter_In in Ha as [Ha _]. exists a. by rewrite list_elem_of_In. }
    apply (StronglySorted_unique_strong (key_le info_name)).
    - intros x1 x2 H1 H2 H12 H21.
      apply Hfrom in H1 as (a & Ha & ->). apply Hfrom in H2 as (b & Hb & ->).
      apply Hsame; [done|by rewrite Hperm|].
      unfold key_le in *. simpl in *. by apply (anti_symm String.le).
    - apply sorted_by_sorted.
    - apply sorted_by_sorted.
    - rewrite !sorted_by_perm. apply surviving_perm.
      unfold entries_of_category. apply Permutation_map. by apply filter_perm. }
  rewrite !main_blocks. f_equal. f_equal. f_equal.
  apply (StronglySorted_unique_strong category_lt).
  - intros x1 x2 _ _ [Hle1 Hne] [Hle2 _]. destruct Hne.
    by apply (anti_symm String.le).
  - apply report_blocks_sorted.
  - apply report_blocks_sorted.
  - apply NoDup_Permutation.
    + apply strictly_sorted_NoDup, report_blocks_sorted.
    + apply strictly_sorted_NoDup, report_blocks_sorted.
    + intros block. by rewrite !report_block_iff, Hgroup.
Qed.

Lemma same_name_entries_keep_inventory_order_witness :
  List.filter (fun e => String.eqb (info_name e) "iTerm")
    [ {| info_name := "Docker"; info_version := "4"; info_source := "Unknown" |};
      {| info_name := "iTerm"; info_version := "3.5"; info_source := "Verified Dev" |};
      {| info_name := "iTerm"; info_version := "3.4"; info_source := "Verified Dev" |} ]
  = [ {| info_name := "iTerm"; info_version := "3.5"; info_source := "Verified Dev" |};
      {| info_name := "iTerm"; info_version := "3.4"; info_source := "Verified Dev" |} ].
Proof.
  refine (same_name_entries_keep_inventory_order ascii_lower ∅
            [ {| name := "iTerm"; path := "/Applications/iTerm.app"; version := "3.5";
                 obtained_from := "identified_developer"; last_modified := "Unknown" |};
              {| name := "Docker"; path := "/Applications/Docker.app"; version := "4";
                 obtained_from := "unknown"; last_modified := "Unknown" |};
              {| name := "iTerm"; path := "/Users/me/iTerm.app"; version := "3.4";
                 obtained_from := "identified_developer"; last_modified := "Unknown" |} ]
            ("Development",
             [ {| info_name := "Docker"; info_version := "4"; info_source := "Unknown" |};
               {| info_name := "iTerm"; info_version := "3.5";
                  info_source := "Verified Dev" |};
               {| info_name := "iTerm"; info_version := "3.4";
                  info_source := "Verified Dev" |} ])
            "iTerm" _).
  apply list_elem_of_In. vm_compute. left. reflexivity.
Defined.

Lemma report_independent_of_inventory_order_witness :
  main ascii_lower ∅
    [ {| name := "iTerm"; path := "/Applications/iTerm.app"; version := "3.5";
         obtained_from := "identified_developer"; last_modified := "Unknown" |};
      {| name := "Docker"; path := "/Applications/Docker.app"; version := "4";
         obtained_from := "unknown"; last_modified := "Unknown" |} ]
  = main ascii_lower ∅
      [ {| name := "Docker"; path := "/Applications/Docker.app"; version := "4";
           obtained_from := "unknown"; last_modified := "Unknown" |};
        {| name := "iTerm"; path := "/Applications/iTerm.app"; version := "3.5";
           obtained_from := "identified_developer"; last_modified := "Unknown" |} ].
Proof.
  apply report_independent_of_inventory_order.
  - apply perm_swap.
  - intros a b Ha Hb Hname.
    apply elem_of_cons in Ha as [->|Ha]; [|apply list_elem_of_singleton in Ha as ->];
      (apply elem_of_cons in Hb as [->|Hb]; [|apply list_elem_of_singleton in Hb as ->]);
      first [reflexivity | discriminate Hname].
Defined.

(** X15. Every kept record whose shown source is not "Apple" is reported:
    its entry stands in a block under the category the classifier gives
    it. *)
Theorem kept_record_is_reported (lower : string -> string)
  (system_apps : gset string) (installed_apps : list (ApplicationRecord string))
  (app : ApplicationRecord string) :
  app ∈ installed_apps ->
  kept lower system_apps app = true ->
  format_source lower (obtained_from app) <> "Apple" ->
  exists entries,
    (get_app_category lower (name app) (path app), entries)
      ∈ report_blocks lower system_apps installed_apps
    /\ make_entry lower app ∈ entries.
Proof.
  intros Hin Hkept Hsrc.
  set (c := get_app_category lower (name app) (path app)).
  assert (He : make_entry lower app
               ∈ sorted_by info_name
                   (surviving (entries_of_category lower system_apps c installed_apps))).
  { apply elem_of_sorted_by, list_elem_of_In. unfold surviving. apply filter_In. split.
    - unfold entries_of_category. apply in_map. apply filter_In.
      split; [by apply list_elem_of_In|].
      rewrite Hkept. unfold c. by rewrite String.eqb_refl.
    - simpl. by destruct (String.eqb_spec (format_source lower (obtained_from app)) "Apple"). }
  eexists. split; [|exact He].
  apply report_block_iff. split; [done|].
  intros Hnil. simpl in Hnil. rewrite Hnil in He. by apply elem_of_nil in He.
Qed.

Lemma kept_record_is_reported_witness :
  exists entries,
    ("Productivity", entries)
      ∈ report_blocks ascii_lower ∅
          [ {| name := "Obsidian"; path := "/Applications/Obsidian.app";
               version := "1.2.0"; obtained_from := "identified_developer";
               last_modified := "Unknown" |} ]
    /\ {| info_name := "Obsidian"; info_version := "1.2.0";
          info_source := "Verified Dev" |} ∈ entries.
Proof.
  refine (kept_record_is_reported ascii_lower ∅
            [ {| name := "Obsidian"; path := "/Applications/Obsidian.app";
                 version := "1.2.0"; obtained_from := "identified_developer";
                 last_modified := "Unknown" |} ]
            {| name := "Obsidian"; path := "/Applications/Obsidian.app";
               version := "1.2.0"; obtained_from := "identified_developer";
               last_modified := "Unknown" |} _ _ _).
  - left.
  - reflexivity.
  - discriminate.
Defined.

(** ** The resolution order of the classifier *)

Lemma dict_get_None {V : Type} (k : string) (d : list (string * V)) :
  dict_get k d = None <-> k ∉ map fst d.
Proof.
  induction d as [|[k' v] d IH]; simpl.
  - split; [intros _ ?%elem_of_nil|]; done.
  - rewrite not_elem_of_cons. destruct (String.eqb_spec k k') as [->|Hne].
    + split; [discriminate|]. by intros [? _].
    + rewrite IH. tauto.
Qed.

Lemma special_cases_NoDup : NoDup (map fst special_cases).
Proof. apply (bool_decide_unpack _). vm_compute. exact I. Qed.

Section KeywordFacts.
Variable lower : string -> string.

Lemma any_keyword_occurs (nl : string) (keywords : list string) :
  any_keyword lower nl keywords = true
  <-> exists keyword, keyword ∈ keywords /\ occurs_in (lower keyword) nl.
Proof.
  unfold any_keyword. rewrite existsb_exists. split.
  - intros (keyword & Hin & Hc). exists keyword.
    split; [by apply list_elem_of_In|by apply contains_occurs].
  - intros (keyword & Hin & Hocc). exists keyword.
    split; [by apply list_elem_of_In|by apply contains_occurs].
Qed.

Lemma no_keyword_occurs (nl : string) (row : string * list string) :
  no_keyword lower nl row
  <-> forall keyword, keyword ∈ snd row -> ~ occurs_in (lower keyword) nl.
Proof.
  unfold no_keyword. split.
  - intros Hno keyword Hin Hocc.
    assert (any_keyword lower nl (snd row) = true); [|congruence].
    apply any_keyword_occurs. by exists keyword.
  - intros Hnone. destruct (any_keyword lower nl (snd row)) eqn:Hany; [|done].
    apply any_keyword_occurs in Hany as (keyword & Hin & Hocc).
    by destruct (Hnone keyword Hin).
Qed.
End KeywordFacts.

(** C1. The classifier returns, for every name and path, one of the nine
    category names, and it resolves in this order.  A name that is a key of
    the override table gets the category of its entry (so "Obsidian" is
    "Productivity", whatever keywords it holds).  Any other name whose
    lowered form holds "ubuntu" is "Virtualization".  Any other name gets
    the category of the first row of the keyword table one of whose lowered
    keywords occurs in the lowered name, and "Other" when no keyword of any
    row occurs; one of the two is always the case. *)
Theorem classifier_total_and_ordered (lower : string -> string) (app_name path : string) :
  get_app_category lower app_name path ∈ CategoryName
  /\ (forall c, (app_name, c) ∈ special_cases ->
        get_app_category lower app_name path = c)
  /\ (app_name ∉ map fst special_cases ->
      occurs_in "ubuntu" (lower app_name) ->
      get_app_category lower app_name path = "Virtualization")
  /\ (app_name ∉ map fst special_cases ->
      ~ occurs_in "ubuntu" (lower app_name) ->
      forall i category keywords keyword,
        categories !! i = Some (category, keywords) ->
        keyword ∈ keywords ->
        occurs_in (lower keyword) (lower app_name) ->
        (forall i' row kw, i' < i -> categories !! i' = Some row -> kw ∈ snd row ->
                           ~ occurs_in (lower kw) (lower app_name)) ->
        get_app_category lower app_name path = category)
  /\ (app_name ∉ map fst special_cases ->
      ~ occurs_in "ubuntu" (lower app_name) ->
      (forall row kw, row ∈ categories -> kw ∈ snd row ->
                      ~ occurs_in (lower kw) (lower app_name)) ->
      get_app_category lower app_name path = "Other")
  /\ (app_name ∉ map fst special_cases ->
      ~ occurs_in "ubuntu" (lower app_name) ->
      (exists i category keywords keyword,
          categories !! i = Some (category, keywords)
          /\ keyword ∈ keywords
          /\ occurs_in (lower keyword) (lower app_name)
          /\ (forall i' row kw, i' < i -> categories !! i' = Some row ->
                                kw ∈ snd row ->
                                ~ occurs_in (lower kw) (lower app_name))
          /\ get_app_category lower app_name path = category)
      \/ ((forall row kw, row ∈ categories -> kw ∈ snd row ->
                          ~ occurs_in (lower kw) (lower app_name))
          /\ get_app_category lower app_name path = "Other"))
  /\ get_app_category lower "Obsidian" path = "Productivity".
Proof.
  assert (Hscan_hit : forall i category keywords keyword,
             categories !! i = Some (category, keywords) ->
             keyword ∈ keywords ->
             occurs_in (lower keyword) (lower app_name) ->
             (forall i' row kw, i' < i -> categories !! i' = Some row ->
                                kw ∈ snd row ->
                                ~ occurs_in (lower kw) (lower app_name)) ->
             scan lower (lower app_name) categories = Some category).
  { intros i category keywords keyword Hi Hin Hocc Hbefore.
    apply (scan_first lower _ _ i category keywords); [done| |].
    - apply any_keyword_occurs. by exists keyword.
    - intros i' row Hlt Hrow. apply no_keyword_occurs.
      intros kw Hkw. by apply (Hbefore i' row kw). }
  assert (Hscan_none :
            (forall row kw, row ∈ categories -> kw ∈ snd row ->
                            ~ occurs_in (lower kw) (lower app_name)) ->
            scan lower (lower app_name) categories = None).
  { intros Hnone.
    destruct (scan lower (lower app_name) categories) as [c|] eqn:Hscan; [|done].
    apply scan_Some in Hscan as (i & keywords & Hi & Hany & _).
    apply any_keyword_occurs in Hany as (keyword & Hin & Hocc).
    destruct (Hnone (c, keywords) keyword); [|done..].
    by eapply list_elem_of_lookup_2. }
  split; [|split; [|split; [|split; [|split; [|split]]]]].
  - unfold get_app_category.
    destruct (dict_get app_name special_cases) as [c|] eqn:Hsp.
    + by eapply special_cases_name.
    + destruct (contains "ubuntu" (lower app_name)).
      * by apply (bool_decide_unpack _).
      * cbv zeta. destruct (scan lower (lower app_name) categories) as [c|] eqn:Hscan.
        -- by eapply scan_categories_name.
        -- by apply (bool_decide_unpack _).
  - intros c Hc. apply dict_get_elem_iff in Hc; [|apply special_cases_NoDup].
    unfold get_app_category. by rewrite Hc.
  - intros Hsp%dict_get_None Hub%contains_occurs.
    unfold get_app_category. by rewrite Hsp, Hub.
  - intros Hsp%dict_get_None Hub%contains_false i category keywords keyword
      Hi Hin Hocc Hbefore.
    unfold get_app_category. rewrite Hsp, Hub. cbv zeta.
    by rewrite (Hscan_hit i category keywords keyword).
  - intros Hsp%dict_get_None Hub%contains_false Hnone.
    unfold get_app_category. rewrite Hsp, Hub. cbv zeta.
    by rewrite Hscan_none.
  - intros Hsp%dict_get_None Hub%contains_false.
    unfold get_app_category. rewrite Hsp, Hub. cbv zeta.
    destruct (scan lower (lower app_name) categories) as [c|] eqn:Hscan.
    + left. apply scan_Some in Hscan as (i & keywords & Hi & Hany & Hbefore).
      apply any_keyword_occurs in Hany as (keyword & Hin & Hocc).
      exists i, c, keywords, keyword. repeat split; [done..|].
      intros i' row kw Hlt Hrow Hkw.
      by apply (proj1 (no_keyword_occurs lower _ row) (Hbefore i' row Hlt Hrow)).
    + right. split; [|done]. intros row kw Hrow Hkw.
      apply scan_None in Hscan. rewrite Forall_forall in Hscan.
      by apply (proj1 (no_keyword_occurs lower _ row) (Hscan row Hrow)).
  - reflexivity.
Qed.

(** The four stages at work: an override that a keyword would contradict,
    the "ubuntu" rule, a keyword of the second row, and no match at all. *)
Lemma classifier_total_and_ordered_witness :
  get_app_category ascii_lower "Google Slides" "/Applications/Google Slides.app"
  = "Productivity"
  /\ get_app_category ascii_lower "vUbuntu 22.04" "/Applications/vUbuntu.app"
     = "Virtualization"
  /\ get_app_category ascii_lower "Firefox Nightly" "/Applications/Firefox Nightly.app"
     = "Browsers & Internet"
  /\ get_app_category ascii_lower "Zotero" "/Applications/Zotero.app" = "Other".
Proof.
  split; [|split; [|split]].
  - apply (proj1 (proj2 (classifier_total_and_ordered ascii_lower "Google Slides"
                           "/Applications/Google Slides.app"))).
    apply (bool_decide_unpack _). vm_compute. exact I.
  - apply (proj1 (proj2 (proj2 (classifier_total_and_ordered ascii_lower
                                  "vUbuntu 22.04" "/Applications/vUbuntu.app")))).
    + apply (bool_decide_unpack _). vm_compute. exact I.
    + apply contains_occurs. reflexivity.
  - apply (proj1 (proj2 (proj2 (proj2 (classifier_total_and_ordered ascii_lower
                                         "Firefox Nightly"
                                         "/Applications/Firefox Nightly.app"))))
             ltac:(apply (bool_decide_unpack _); vm_compute; exact I)
             ltac:(apply contains_false; reflexivity)
             1 "Browsers & Internet"
             [ "Chrome"; "Firefox"; "Safari"; "Opera"; "Edge"; "Arc"; "Browser" ]
             "Firefox").
    + reflexivity.
    + apply (bool_decide_unpack _). vm_compute. exact I.
    + apply contains_occurs. reflexivity.
    + intros i' row kw Hlt Hrow.
      assert (i' = 0) as -> by lia. injection Hrow as <-.
      revert kw. apply no_keyword_occurs. reflexivity.
  - apply (proj1 (proj2 (proj2 (proj2 (proj2 (classifier_total_and_ordered ascii_lower
                                                "Zotero" "/Applications/Zotero.app")))))).
    + apply (bool_decide_unpack _). vm_compute. exact I.
    + apply contains_false. reflexivity.
    + intros row kw Hrow Hkw. revert kw Hkw. apply no_keyword_occurs. revert row Hrow.
      apply Forall_forall. unfold categories. repeat constructor.
Defined.
